(** * Prizebond: the bond ingestion engine of [handleProcessInput]

    A shallow embedding of the ingestion logic of the Prizebond application
    (a React single-page app that keeps a list of 7-digit prize bond
    numbers), and proofs of the properties its specification states.

    - [JS]       the JavaScript built-ins the code calls ([String.prototype.trim],
                 [split], [includes], [padStart], [parseInt],
                 [Number.prototype.toString], [Set]) and the two regular
                 expressions it matches with;
    - [Index]    [handleProcessInput] of [src/index.tsx];
    - [Part000]  [handleProcessInput] of [src/unnamed/part_000], an earlier
                 variant of the same component ([src/unnamed/part_001] has
                 the same ingestion loop with other message texts).

    Strings are [string]s of 8-bit characters: a JavaScript string whose code
    units are all below 256.  JavaScript numbers are [Z]: every number the
    code computes is an integer far below 2^53. *)

From Stdlib Require Import ZArith String Ascii List Bool Sorted Lia.
Import ListNotations.

Local Open Scope string_scope.
Local Open Scope list_scope.
Local Open Scope Z_scope.

(* ================================================================== *)
(** ** JavaScript built-ins *)
(* ================================================================== *)

Module JS.

(** The code unit of a character. *)
Definition code (c : ascii) : Z := Z.of_N (N_of_ascii c).

(** The class [\d]: the ASCII digits. *)
Definition isDigit (c : ascii) : bool := (48 <=? code c) && (code c <=? 57).

(** The class [\s], which is also what [trim] strips: TAB, LF, VT, FF, CR,
    SPACE and NBSP are its members below 256. *)
Definition isSpace (c : ascii) : bool :=
  existsb (Z.eqb (code c)) [9; 10; 11; 12; 13; 32; 160].

(** [s.trimStart()] *)
Fixpoint trimStart (s : string) : string :=
  match s with
  | String c r => if isSpace c then trimStart r else s
  | EmptyString => EmptyString
  end.

(** [s.trimEnd()] *)
Fixpoint trimEnd (s : string) : string :=
  match s with
  | String c r =>
      match trimEnd r with
      | EmptyString => if isSpace c then EmptyString else String c EmptyString
      | r' => String c r'
      end
  | EmptyString => EmptyString
  end.

(** [s.trim()] *)
Definition trim (s : string) : string := trimEnd (trimStart s).

(** [Boolean(s)] for a string: the empty string is the only falsy one. *)
Definition truthy (s : string) : bool :=
  match s with EmptyString => false | String _ _ => true end.

(** [s.includes(sub)] *)
Fixpoint includes (s sub : string) : bool :=
  String.prefix sub s
  || match s with
     | String _ r => includes r sub
     | EmptyString => false
     end.

(** [s.split(re)] for a regular expression [re = [...]+] over a character
    class [sep]: the pieces between the maximal runs of separators.  [cur]
    holds the piece being read, reversed; [inRun] says that the previous
    character was a separator. *)
Fixpoint splitRuns (sep : ascii -> bool) (inRun : bool) (cur : list ascii)
         (s : string) : list string :=
  match s with
  | EmptyString => [string_of_list_ascii (rev cur)]
  | String c r =>
      if sep c then
        if inRun then splitRuns sep true cur r
        else string_of_list_ascii (rev cur) :: splitRuns sep true [] r
      else splitRuns sep false (c :: cur) r
  end.

Definition splitClass (sep : ascii -> bool) (s : string) : list string :=
  splitRuns sep false [] s.

(** [s.split(c)] for a one-character string [c]: every occurrence of [c]
    ends a piece. *)
Fixpoint splitCharFrom (c : ascii) (cur : list ascii) (s : string) : list string :=
  match s with
  | EmptyString => [string_of_list_ascii (rev cur)]
  | String d r =>
      if Ascii.eqb d c then string_of_list_ascii (rev cur) :: splitCharFrom c [] r
      else splitCharFrom c (d :: cur) r
  end.

Definition splitChar (c : ascii) (s : string) : list string := splitCharFrom c [] s.

(** [parseInt(s, 10)] on a string that starts with a decimal digit: the
    value of its longest prefix of digits.  Both call sites pass a group
    captured by [\d{7}], so that the clauses of [parseInt] on leading white
    space, a sign, or no digit at all (NaN) never apply. *)
Fixpoint parseDigits (acc : Z) (s : string) : Z :=
  match s with
  | String c r => if isDigit c then parseDigits (10 * acc + (code c - 48)) r else acc
  | EmptyString => acc
  end.

Definition parseInt (s : string) : Z := parseDigits 0 s.

(** The character of a decimal digit [0 <= d <= 9]. *)
Definition digitChar (d : Z) : ascii := ascii_of_N (Z.to_N (48 + d)).

(** The decimal digits of [n >= 0], most significant first, in front of
    [acc]; [fuel] bounds the number of digits after the first. *)
Fixpoint digitsOf (fuel : nat) (n : Z) (acc : string) : string :=
  let acc' := String (digitChar (n mod 10)) acc in
  match fuel with
  | O => acc'
  | S f => if n / 10 =? 0 then acc' else digitsOf f (n / 10) acc'
  end.

(** [n.toString()] for an integer [n]: a number below [2^(k+1)] has at most
    [k + 1] decimal digits, so the fuel [log2 n] is enough. *)
Definition toString (n : Z) : string :=
  if n <? 0 then String "-" (digitsOf (Z.to_nat (Z.log2 (- n))) (- n) EmptyString)
  else digitsOf (Z.to_nat (Z.log2 n)) n EmptyString.

(** The filler of [padStart]: the first [n] characters of [pad] repeated;
    [rest] is what is left of the current copy of [pad]. *)
Fixpoint fillTo (n : nat) (pad rest : string) : string :=
  match n with
  | O => EmptyString
  | S n' =>
      match rest with
      | String c r => String c (fillTo n' pad r)
      | EmptyString =>
          match pad with
          | String c r => String c (fillTo n' pad r)
          | EmptyString => EmptyString
          end
      end
  end.

(** [s.padStart(target, pad)] *)
Definition padStart (target : nat) (pad s : string) : string :=
  if (target <=? String.length s)%nat then s
  else String.append (fillTo (target - String.length s) pad pad) s.

(** A JavaScript [Set] of strings: its elements in insertion order, each
    once. *)
Definition JSSet := list string.

(** [set.has(x)] *)
Definition has (set : JSSet) (x : string) : bool := existsb (String.eqb x) set.

(** [set.add(x)]: a value already present keeps its place. *)
Definition add (set : JSSet) (x : string) : JSSet :=
  if has set x then set else set ++ [x].

(** [new Set(xs)] *)
Definition newSet (xs : list string) : JSSet := fold_left add xs [].

(** [set.size] *)
Definition size (set : JSSet) : Z := Z.of_nat (List.length set).

(** [xs.join(sep)] *)
Fixpoint join (sep : string) (xs : list string) : string :=
  match xs with
  | [] => EmptyString
  | [x] => x
  | x :: rest => String.append x (String.append sep (join sep rest))
  end.

(** *** The regular expressions *)

(** [\d{n}] at the start of [s]: the digits matched and what follows. *)
Fixpoint digitsN (n : nat) (s : string) : option (string * string) :=
  match n with
  | O => Some (EmptyString, s)
  | S n' =>
      match s with
      | String c r =>
          if isDigit c then
            match digitsN n' r with
            | Some (d, rest) => Some (String c d, rest)
            | None => None
            end
          else None
      | EmptyString => None
      end
  end.

(** [\s*] at the start of [s]: what follows the white space.  The pattern
    goes on with a character that is no white space, so the greedy match is
    the only one that can succeed. *)
Fixpoint skipSpaces (s : string) : string :=
  match s with
  | String c r => if isSpace c then skipSpaces r else s
  | EmptyString => EmptyString
  end.

(** [s.match(/^(\d{7})\s*-\s*(\d{7})$/)]: the two groups, or [None] for
    [null]. *)
Definition rangeMatch (s : string) : option (string * string) :=
  match digitsN 7 s with
  | Some (startStr, r1) =>
      match skipSpaces r1 with
      | String "-" r2 =>
          match digitsN 7 (skipSpaces r2) with
          | Some (endStr, EmptyString) => Some (startStr, endStr)
          | _ => None
          end
      | _ => None
      end
  | None => None
  end.

(** [/^\d{7}$/.test(s)] *)
Definition singleTest (s : string) : bool :=
  match digitsN 7 s with
  | Some (_, EmptyString) => true
  | _ => false
  end.

End JS.

(* ================================================================== *)
(** ** [src/index.tsx]: the component state and [handleProcessInput] *)
(* ================================================================== *)

Module Index.
Import JS.

(** [type NotificationType = 'success' | 'error' | 'warning'] *)
Inductive NotificationType := success | error | warning.

(** [interface Notification] *)
Record Notification := {
  id : Z;
  type : NotificationType;
  message : string
}.

(** The state of [PrizeBondApp] that ingestion reads or writes: the hooks
    [bonds], [inputValue] and [notifications]. *)
Record State := {
  bonds : list string;
  inputValue : string;
  notifications : list Notification
}.

(** [showNotification(type, message)]; [now] is what [Date.now()] returns.
    The timer that removes the notification four seconds later is not
    modelled. *)
Definition showNotification (now : Z) (t : NotificationType) (msg : string)
           (st : State) : State :=
  {| bonds := bonds st;
     inputValue := inputValue st;
     notifications := notifications st ++ [{| id := now; type := t; message := msg |}] |}.

(** [setInputValue(v)] *)
Definition setInputValue (v : string) (st : State) : State :=
  {| bonds := bonds st; inputValue := v; notifications := notifications st |}.

(** [setBonds(f)] with an updater function [f] *)
Definition setBonds (f : list string -> list string) (st : State) : State :=
  {| bonds := f (bonds st); inputValue := inputValue st;
     notifications := notifications st |}.

(** The local variables of [handleProcessInput] that the [forEach] callback
    updates. *)
Record Outcome := {
  validNewBonds : JSSet;
  duplicates : Z;
  rangeFormatErrors : Z;
  rangeSizeErrors : Z;
  singleFormatErrors : Z
}.

(** Their initial values. *)
Definition noOutcome : Outcome :=
  {| validNewBonds := []; duplicates := 0; rangeFormatErrors := 0;
     rangeSizeErrors := 0; singleFormatErrors := 0 |}.

(** [const MAX_RANGE_SIZE = 50000] *)
Definition MAX_RANGE_SIZE : Z := 50000.

(** The separators of [inputValue.split(/[,\s\n]+/)] *)
Definition isSeparator (c : ascii) : bool :=
  Ascii.eqb c "," || isSpace c || Ascii.eqb c "010".

(** [inputValue.split(/[,\s\n]+/).map(s => s.trim()).filter(Boolean)] *)
Definition segmentsOf (input : string) : list string :=
  filter truthy (map trim (splitClass isSeparator input)).

(** The test on one candidate, the same in the range loop and in the single
    branch:
    [if (existingSet.has(bondStr) || validNewBonds.has(bondStr)) duplicates++
     else validNewBonds.add(bondStr)] *)
Definition consider (existingSet : JSSet) (bondStr : string) (o : Outcome) : Outcome :=
  if has existingSet bondStr || has (validNewBonds o) bondStr then
    {| validNewBonds := validNewBonds o;
       duplicates := duplicates o + 1;
       rangeFormatErrors := rangeFormatErrors o;
       rangeSizeErrors := rangeSizeErrors o;
       singleFormatErrors := singleFormatErrors o |}
  else
    {| validNewBonds := add (validNewBonds o) bondStr;
       duplicates := duplicates o;
       rangeFormatErrors := rangeFormatErrors o;
       rangeSizeErrors := rangeSizeErrors o;
       singleFormatErrors := singleFormatErrors o |}.

(** [const bondStr = i.toString().padStart(7, '0')] *)
Definition bondStr (i : Z) : string := padStart 7 "0" (toString i).

(** [for (let i = start; i <= end; i++) { ... }] with [count] iterations
    left, the next one at [i]. *)
Fixpoint rangeLoop (existingSet : JSSet) (count : nat) (i : Z) (o : Outcome) : Outcome :=
  match count with
  | O => o
  | S count' => rangeLoop existingSet count' (i + 1) (consider existingSet (bondStr i) o)
  end.

(** The callback of [segments.forEach]. *)
Definition processSegment (existingSet : JSSet) (segment : string) (o : Outcome) : Outcome :=
  match rangeMatch segment with
  | Some (startStr, endStr) =>
      let start := parseInt startStr in
      let end_ := parseInt endStr in
      let '(start, end_) := if start >? end_ then (end_, start) else (start, end_) in
      if end_ - start >? MAX_RANGE_SIZE then
        {| validNewBonds := validNewBonds o;
           duplicates := duplicates o;
           rangeFormatErrors := rangeFormatErrors o;
           rangeSizeErrors := rangeSizeErrors o + 1;
           singleFormatErrors := singleFormatErrors o |}
      else rangeLoop existingSet (Z.to_nat (end_ - start + 1)) start o
  | None =>
      if includes segment "-" then
        {| validNewBonds := validNewBonds o;
           duplicates := duplicates o;
           rangeFormatErrors := rangeFormatErrors o + 1;
           rangeSizeErrors := rangeSizeErrors o;
           singleFormatErrors := singleFormatErrors o |}
      else if singleTest segment then consider existingSet segment o
      else
        {| validNewBonds := validNewBonds o;
           duplicates := duplicates o;
           rangeFormatErrors := rangeFormatErrors o;
           rangeSizeErrors := rangeSizeErrors o;
           singleFormatErrors := singleFormatErrors o + 1 |}
  end.

(** The scan of [handleProcessInput]: the outcome of [segments.forEach]
    over the tokens of [input], against the collection [bondList]. *)
Definition ingest (bondList : list string) (input : string) : Outcome :=
  let existingSet := newSet bondList in
  fold_left (fun o segment => processSegment existingSet segment o)
            (segmentsOf input) noOutcome.

(** [`${n} word${n > 1 ? 's' : ''}`] *)
Definition plural (n : Z) : string := if n >? 1 then "s" else "".

(** The message of the success branch. *)
Definition successMessage (o : Outcome) : string :=
  let n := size (validNewBonds o) in
  let message :=
    String.append "Added " (String.append (toString n)
      (String.append " bond" (String.append (plural n) "."))) in
  if duplicates o >? 0 then
    String.append message (String.append " " (String.append (toString (duplicates o))
      (String.append " duplicate" (String.append (plural (duplicates o)) " skipped."))))
  else message.

(** [hasFormatErrors] *)
Definition hasFormatErrors (o : Outcome) : bool :=
  (rangeSizeErrors o >? 0) || (rangeFormatErrors o >? 0) || (singleFormatErrors o >? 0).

(** The texts pushed on [parts]. *)
Definition duplicatesPart (o : Outcome) : string :=
  String.append (toString (duplicates o))
    (String.append " duplicate" (plural (duplicates o))).

Definition rangeSizePart (o : Outcome) : string :=
  String.append (toString (rangeSizeErrors o))
    (String.append " ranges too large (max " (String.append (toString MAX_RANGE_SIZE) ")")).

Definition rangeFormatPart (o : Outcome) : string :=
  String.append (toString (rangeFormatErrors o)) " ranges with invalid digits (must be 7)".

Definition singleFormatPart (o : Outcome) : string :=
  String.append (toString (singleFormatErrors o))
    (String.append " invalid number"
       (String.append (plural (singleFormatErrors o)) " (must be 7 digits)")).

(** [parts] when the branch of the pure duplicates has not returned. *)
Definition partsOf (o : Outcome) : list string :=
  (if duplicates o >? 0 then [duplicatesPart o] else [])
  ++ (if rangeSizeErrors o >? 0 then [rangeSizePart o] else [])
  ++ (if rangeFormatErrors o >? 0 then [rangeFormatPart o] else [])
  ++ (if singleFormatErrors o >? 0 then [singleFormatPart o] else []).

(** [`Issue${parts.length > 1 ? 's' : ''}: ${parts.join(', ')}.`] *)
Definition issuesMessage (parts : list string) : string :=
  String.append "Issue"
    (String.append (plural (Z.of_nat (List.length parts)))
       (String.append ": " (String.append (join ", " parts) "."))).

(** [handleProcessInput], run on the state [st] at the time [now].  React
    applies the queued updates of the handler when it returns; each hook is
    set at most once here, so that the state after the handler is the state
    with the updates applied in order. *)
Definition handleProcessInput (now : Z) (st : State) : State :=
  if negb (truthy (trim (inputValue st))) then
    showNotification now warning "Please enter bond numbers to add." st
  else
    let o := ingest (bonds st) (inputValue st) in
    if size (validNewBonds o) >? 0 then
      showNotification now success (successMessage o)
        (setInputValue ""
           (setBonds (fun prev => rev (validNewBonds o) ++ prev) st))
    else if (duplicates o >? 0) && negb (hasFormatErrors o) then
      showNotification now warning
        (String.append "Duplicate bond" (String.append (plural (duplicates o)) " found."))
        (setInputValue "" st)
    else
      let parts := partsOf o in
      if Z.of_nat (List.length parts) >? 0 then
        showNotification now warning (issuesMessage parts) st
      else showNotification now error "No valid bonds found." st.

(** The user types [text] in the input field and presses the save button at
    the time [now], once for each element of [inputs]. *)
Fixpoint ingestAll (inputs : list (Z * string)) (st : State) : State :=
  match inputs with
  | [] => st
  | (now, text) :: rest => ingestAll rest (handleProcessInput now (setInputValue text st))
  end.

(** The state of a fresh component: [useState([])], [useState('')]. *)
Definition initialState : State :=
  {| bonds := []; inputValue := ""; notifications := [] |}.

End Index.

(* ================================================================== *)
(** ** [src/unnamed/part_000]: the earlier [handleProcessInput] *)
(* ================================================================== *)

(** The earlier variant splits on commas only, rejects a range whose first
    bound is the greater one, caps a range at 5000 and keeps one counter for
    every malformed token.  Its [Notification] type and its hooks are the
    ones of [src/index.tsx]. *)

Module Part000.
Import JS.

(** The local variables that the [forEach] callback updates. *)
Record Locals := {
  validNewBonds : JSSet;
  duplicates : Z;
  invalidFormatCount : Z;
  rangeErrors : Z
}.

Definition noLocals : Locals :=
  {| validNewBonds := []; duplicates := 0; invalidFormatCount := 0; rangeErrors := 0 |}.

(** [inputValue.split(',').map(s => s.trim()).filter(Boolean)] *)
Definition segmentsOf (input : string) : list string :=
  filter truthy (map trim (splitChar "," input)).

Definition consider (existingSet : JSSet) (bondStr : string) (l : Locals) : Locals :=
  if has existingSet bondStr || has (validNewBonds l) bondStr then
    {| validNewBonds := validNewBonds l; duplicates := duplicates l + 1;
       invalidFormatCount := invalidFormatCount l; rangeErrors := rangeErrors l |}
  else
    {| validNewBonds := add (validNewBonds l) bondStr; duplicates := duplicates l;
       invalidFormatCount := invalidFormatCount l; rangeErrors := rangeErrors l |}.

Fixpoint rangeLoop (existingSet : JSSet) (count : nat) (i : Z) (l : Locals) : Locals :=
  match count with
  | O => l
  | S count' =>
      rangeLoop existingSet count' (i + 1) (consider existingSet (Index.bondStr i) l)
  end.

Definition countRangeError (l : Locals) : Locals :=
  {| validNewBonds := validNewBonds l; duplicates := duplicates l;
     invalidFormatCount := invalidFormatCount l; rangeErrors := rangeErrors l + 1 |}.

(** The callback of [segments.forEach]; it shows a warning of its own for a
    range over the cap, so it runs on the locals and the state. *)
Definition processSegment (now : Z) (existingSet : JSSet) (segment : string)
           (p : Locals * Index.State) : Locals * Index.State :=
  let '(l, st) := p in
  match rangeMatch segment with
  | Some (startStr, endStr) =>
      let start := parseInt startStr in
      let end_ := parseInt endStr in
      if start >? end_ then (countRangeError l, st)
      else if end_ - start >? 5000 then
        (countRangeError l,
         Index.showNotification now Index.warning
           (String.append "Range "
              (String.append segment " too large (max 5000). Skipped.")) st)
      else (rangeLoop existingSet (Z.to_nat (end_ - start + 1)) start l, st)
  | None =>
      if singleTest segment then (consider existingSet segment l, st)
      else
        ({| validNewBonds := validNewBonds l; duplicates := duplicates l;
            invalidFormatCount := invalidFormatCount l + 1;
            rangeErrors := rangeErrors l |}, st)
  end.

(** [handleProcessInput]; [now] stands for every reading of [Date.now()]
    during the call. *)
Definition handleProcessInput (now : Z) (st : Index.State) : Index.State :=
  if negb (truthy (trim (Index.inputValue st))) then
    Index.showNotification now Index.warning "Please enter bond numbers to add." st
  else
    let existingSet := newSet (Index.bonds st) in
    let '(l, st1) :=
      fold_left (fun p segment => processSegment now existingSet segment p)
                (segmentsOf (Index.inputValue st)) (noLocals, st) in
    if size (validNewBonds l) >? 0 then
      let message :=
        String.append "Successfully added "
          (String.append (toString (size (validNewBonds l))) " bonds.") in
      let message :=
        if duplicates l >? 0 then
          String.append message
            (String.append " " (String.append (toString (duplicates l)) " duplicates skipped."))
        else message in
      Index.showNotification now Index.success message
        (Index.setInputValue ""
           (Index.setBonds (fun prev => rev (validNewBonds l) ++ prev) st1))
    else
      let errorMsg := "No valid bonds added." in
      let errorMsg :=
        if duplicates l >? 0 then
          String.append errorMsg
            (String.append " " (String.append (toString (duplicates l)) " duplicates."))
        else errorMsg in
      let errorMsg :=
        if invalidFormatCount l >? 0 then
          String.append errorMsg
            (String.append " " (String.append (toString (invalidFormatCount l)) " invalid formats."))
        else errorMsg in
      Index.showNotification now (if duplicates l >? 0 then Index.warning else Index.error)
        errorMsg st1.

End Part000.

(* ================================================================== *)
(** ** [src/index.tsx]: the other handlers of [PrizeBondApp] *)
(* ================================================================== *)

(** The component with every hook that a handler reads or writes, and the
    clipboard of the browser.  The two effects that read and write
    [localStorage] through [JSON] are not modelled: the component starts
    with nothing stored. *)

Module App.
Import JS Index.

Record App := {
  state : State;
  searchQuery : string;
  isClearDialogOpen : bool;
  clipboard : string
}.

(** A fresh component; the clipboard holds [clip]. *)
Definition initialApp (clip : string) : App :=
  {| state := initialState; searchQuery := ""; isClearDialogOpen := false;
     clipboard := clip |}.

(** A handler on the three hooks of [State], run in the component. *)
Definition onState (f : State -> State) (app : App) : App :=
  {| state := f (state app); searchQuery := searchQuery app;
     isClearDialogOpen := isClearDialogOpen app; clipboard := clipboard app |}.

(** [setSearchQuery(q)] *)
Definition setSearchQuery (q : string) (app : App) : App :=
  {| state := state app; searchQuery := q;
     isClearDialogOpen := isClearDialogOpen app; clipboard := clipboard app |}.

(** [setIsClearDialogOpen(v)] *)
Definition setIsClearDialogOpen (v : bool) (app : App) : App :=
  {| state := state app; searchQuery := searchQuery app;
     isClearDialogOpen := v; clipboard := clipboard app |}.

(** What a resolved [navigator.clipboard.writeText(text)] leaves. *)
Definition writeText (text : string) (app : App) : App :=
  {| state := state app; searchQuery := searchQuery app;
     isClearDialogOpen := isClearDialogOpen app; clipboard := text |}.

(** [removeNotification(id)], which is also what the timer of
    [showNotification] runs:
    [setNotifications(prev => prev.filter(n => n.id !== id))] *)
Definition removeNotification (i : Z) (st : State) : State :=
  {| bonds := bonds st; inputValue := inputValue st;
     notifications := filter (fun n => negb (id n =? i)) (notifications st) |}.

(** [handleDelete(bondToDelete)] *)
Definition handleDelete (now : Z) (bondToDelete : string) (st : State) : State :=
  showNotification now success
    (String.append "Bond " (String.append bondToDelete " deleted."))
    (setBonds (filter (fun b => negb (String.eqb b bondToDelete))) st).

(** [handleClearAllClick()] *)
Definition handleClearAllClick (app : App) : App :=
  if Z.of_nat (List.length (bonds (state app))) =? 0 then app
  else setIsClearDialogOpen true app.

(** [confirmClearAll()] *)
Definition confirmClearAll (now : Z) (st : State) : State :=
  showNotification now success "Database cleared successfully."
    (setBonds (fun _ => []) st).

(** The button "Yes, Clear All" of [ConfirmationModal], which is rendered
    when the dialog is open only: [onConfirm(); onClose()]. *)
Definition modalConfirm (now : Z) (app : App) : App :=
  if negb (isClearDialogOpen app) then app
  else setIsClearDialogOpen false (onState (confirmClearAll now) app).

(** The button "Cancel" and the backdrop of [ConfirmationModal]:
    [onClose()]. *)
Definition modalClose (app : App) : App :=
  if negb (isClearDialogOpen app) then app
  else setIsClearDialogOpen false app.

(** [filteredBondsForCopy], and [filteredBonds] of [BondListPanel], which is
    the same expression:
    [if (!searchQuery) return bonds; return bonds.filter(b => b.includes(searchQuery))] *)
Definition filteredBonds (bondList : list string) (query : string) : list string :=
  if negb (truthy query) then bondList
  else filter (fun b => includes b query) bondList.

(** [handleCopy(text)]; [writeOk] says whether the promise of [writeText]
    resolves, and [now] is the time when it settles. *)
Definition handleCopy (writeOk : bool) (now : Z) (text : string) (app : App) : App :=
  if writeOk then
    onState (showNotification now success (String.append "Copied " text))
            (writeText text app)
  else onState (showNotification now error "Failed to copy") app.

(** [handleCopyAll()] *)
Definition handleCopyAll (writeOk : bool) (now : Z) (app : App) : App :=
  let filteredBondsForCopy := filteredBonds (bonds (state app)) (searchQuery app) in
  if Z.of_nat (List.length filteredBondsForCopy) =? 0 then
    onState (showNotification now warning "No bonds to copy.") app
  else if writeOk then
    onState (showNotification now success
               (String.append "Copied "
                  (String.append (toString (Z.of_nat (List.length filteredBondsForCopy)))
                                 " bonds.")))
            (writeText (join ", " filteredBondsForCopy) app)
  else onState (showNotification now error "Failed to copy") app.

(** What the user can do to the component. *)
Inductive Action :=
| TypeInput (text : string)
| Save (now : Z)
| Delete (now : Z) (bond : string)
| ClearAllClick
| ModalConfirm (now : Z)
| ModalClose
| Search (query : string)
| Copy (writeOk : bool) (now : Z) (text : string)
| CopyAll (writeOk : bool) (now : Z)
| Dismiss (i : Z).

(** The handler that each action runs. *)
Definition step (a : Action) (app : App) : App :=
  match a with
  | TypeInput text => onState (setInputValue text) app
  | Save now => onState (handleProcessInput now) app
  | Delete now bond => onState (handleDelete now bond) app
  | ClearAllClick => handleClearAllClick app
  | ModalConfirm now => modalConfirm now app
  | ModalClose => modalClose app
  | Search query => setSearchQuery query app
  | Copy writeOk now text => handleCopy writeOk now text app
  | CopyAll writeOk now => handleCopyAll writeOk now app
  | Dismiss i => onState (removeNotification i) app
  end.

(** A session: the actions in the order of the list. *)
Definition run (actions : list Action) (app : App) : App :=
  fold_left (fun app a => step a app) actions app.

End App.

(* ================================================================== *)
(** ** The vocabulary of the statements *)
(* ================================================================== *)

(** [everyChar p s]: every character of [s] is in the class [p]. *)
Fixpoint everyChar (p : ascii -> bool) (s : string) : bool :=
  match s with
  | EmptyString => true
  | String c r => p c && everyChar p r
  end.

(** [upFrom count i]: the [count] integers from [i] upwards, the values that
    the loop variable takes. *)
Fixpoint upFrom (count : nat) (i : Z) : list Z :=
  match count with
  | O => []
  | S count' => i :: upFrom count' (i + 1)
  end.

(** The identifiers of [upFrom count i] that the set [existingSet] does not
    hold. *)
Definition newIds (existingSet : JS.JSSet) (count : nat) (i : Z) : list string :=
  filter (fun x => negb (JS.has existingSet x)) (map Index.bondStr (upFrom count i)).

(** The order of two identifiers by their values. *)
Definition valueLt (x y : string) : Prop := JS.parseInt x < JS.parseInt y.

(** What the scan maintains about the accepted set: it holds every identifier
    once, and none that the collection has. *)
Definition Fresh (existingSet : JS.JSSet) (o : Index.Outcome) : Prop :=
  NoDup (Index.validNewBonds o)
  /\ forall x, In x (Index.validNewBonds o) -> JS.has existingSet x = false.

(** The counters of an outcome count: none is negative. *)
Definition Counted (o : Index.Outcome) : Prop :=
  0 <= Index.duplicates o /\ 0 <= Index.rangeFormatErrors o
  /\ 0 <= Index.rangeSizeErrors o /\ 0 <= Index.singleFormatErrors o.

(** The candidates that the callback of [src/index.tsx] tests for a token:
    the identifiers of a range within the cap, a single identifier itself,
    none for a token that is counted as an error. *)
Definition candidatesOf (segment : string) : list string :=
  match JS.rangeMatch segment with
  | Some (a, b) =>
      let lo := Z.min (JS.parseInt a) (JS.parseInt b) in
      let hi := Z.max (JS.parseInt a) (JS.parseInt b) in
      if hi - lo >? Index.MAX_RANGE_SIZE then []
      else map Index.bondStr (upFrom (Z.to_nat (hi - lo + 1)) lo)
  | None =>
      if JS.includes segment "-" then []
      else if JS.singleTest segment then [segment] else []
  end.

(** The accepted set after the test on one candidate. *)
Definition accept (existingSet acc : JS.JSSet) (x : string) : JS.JSSet :=
  if JS.has existingSet x || JS.has acc x then acc else JS.add acc x.

(** The sum of the three counters of formatting errors. *)
Definition formatErrors (o : Index.Outcome) : Z :=
  Index.rangeFormatErrors o + Index.rangeSizeErrors o + Index.singleFormatErrors o.

(** A token without candidates. *)
Definition rejected (segment : string) : bool :=
  match candidatesOf segment with [] => true | _ => false end.

(** A collection of identifiers, each once. *)
Definition WellFormed (bondList : list string) : Prop :=
  NoDup bondList /\ Forall (fun x => JS.singleTest x = true) bondList.

(** The scan of [src/unnamed/part_000]: the locals and the state after
    [segments.forEach]. *)
Definition part000Scan (now : Z) (st : Index.State) : Part000.Locals * Index.State :=
  fold_left (fun p segment =>
               Part000.processSegment now (JS.newSet (Index.bonds st)) segment p)
            (Part000.segmentsOf (Index.inputValue st)) (Part000.noLocals, st).

(** The accepted set and the count of duplicates of an outcome. *)
Definition tally (o : Index.Outcome) : JS.JSSet * Z :=
  (Index.validNewBonds o, Index.duplicates o).

(** The treatment of one candidate in the words of the specification: a
    candidate that the collection holds, or that has been accepted earlier in
    the same call, adds one to the count of duplicates and is discarded; any
    other candidate is added to the accepted set, behind the ones accepted
    before. *)
Definition dedupStep (bondList : list string) (p : list string * Z) (x : string)
  : list string * Z :=
  let '(accepted, dups) := p in
  if existsb (String.eqb x) bondList || existsb (String.eqb x) accepted
  then (accepted, dups + 1)
  else (accepted ++ [x], dups).

(** The notifications of a state without their ids: the type and the text of
    each. *)
Definition shownTexts (st : Index.State) : list (Index.NotificationType * string) :=
  map (fun n => (Index.type n, Index.message n)) (Index.notifications st).

(** [Shown now t msg st st']: the handler has shown one notification, of the
    type [t] and with the text [msg]. *)
Definition Shown (now : Z) (t : Index.NotificationType) (msg : string)
           (st st' : Index.State) : Prop :=
  Index.notifications st'
  = Index.notifications st ++ [{| Index.id := now; Index.type := t; Index.message := msg |}].

(* ================================================================== *)
(** ** Sets *)
(* ================================================================== *)

Section SetFacts.
Import JS.

Lemma has_In (set : JSSet) (x : string) : has set x = true <-> In x set.
Proof.
  unfold has. rewrite existsb_exists. split.
  - intros [y [Hy Heq]]. apply String.eqb_eq in Heq. now subst.
  - intros H. exists x. split; [assumption | apply String.eqb_refl].
Qed.

Lemma has_false_In (set : JSSet) (x : string) : has set x = false <-> ~ In x set.
Proof.
  rewrite <- has_In. destruct (has set x); split; congruence.
Qed.

Lemma In_add (set : JSSet) (x y : string) : In y (add set x) <-> In y set \/ y = x.
Proof.
  unfold add. destruct (has set x) eqn:E.
  - apply has_In in E. split; [tauto | intros [H | ->]; assumption].
  - rewrite in_app_iff. simpl. split; intros [H | H]; auto.
    + destruct H as [H | []]; auto.
Qed.

Lemma NoDup_add (set : JSSet) (x : string) : NoDup set -> NoDup (add set x).
Proof.
  intros Hnd. unfold add. destruct (has set x) eqn:E; [assumption |].
  apply has_false_In in E.
  apply NoDup_app; [assumption | repeat constructor; intros [] | ].
  intros y Hy [<- | []]. contradiction.
Qed.

Lemma In_fold_add (xs : list string) (acc : JSSet) (x : string) :
  In x (fold_left add xs acc) <-> In x acc \/ In x xs.
Proof.
  revert acc. induction xs as [| y ys IH]; intros acc; simpl.
  - tauto.
  - rewrite IH, In_add. intuition congruence.
Qed.

(** [new Set(xs)] has the members of [xs]. *)
Lemma has_newSet (xs : list string) (x : string) : has (newSet xs) x = has xs x.
Proof.
  apply eq_true_iff_eq. rewrite !has_In. unfold newSet.
  rewrite In_fold_add. simpl. tauto.
Qed.

End SetFacts.

(* ================================================================== *)
(** ** The scan of [src/index.tsx] *)
(* ================================================================== *)

Section Scan.
Import JS Index.

(** The set built from the collection before the scan. *)
Variable existingSet : JSSet.

Lemma consider_known (x : string) (o : Outcome) :
  has existingSet x || has (validNewBonds o) x = true ->
  consider existingSet x o =
    {| validNewBonds := validNewBonds o;
       duplicates := duplicates o + 1;
       rangeFormatErrors := rangeFormatErrors o;
       rangeSizeErrors := rangeSizeErrors o;
       singleFormatErrors := singleFormatErrors o |}.
Proof. intros H. unfold consider. now rewrite H. Qed.

Lemma consider_new (x : string) (o : Outcome) :
  has existingSet x = false -> has (validNewBonds o) x = false ->
  consider existingSet x o =
    {| validNewBonds := validNewBonds o ++ [x];
       duplicates := duplicates o;
       rangeFormatErrors := rangeFormatErrors o;
       rangeSizeErrors := rangeSizeErrors o;
       singleFormatErrors := singleFormatErrors o |}.
Proof. intros H1 H2. unfold consider, add. now rewrite H1, H2. Qed.

Lemma Fresh_noOutcome : Fresh existingSet noOutcome.
Proof. split; [constructor | intros x []]. Qed.

Lemma Fresh_consider (x : string) (o : Outcome) :
  Fresh existingSet o -> Fresh existingSet (consider existingSet x o).
Proof.
  intros [Hnd Hex]. unfold consider.
  destruct (has existingSet x) eqn:E1; simpl; [now split |].
  destruct (has (validNewBonds o) x) eqn:E2; simpl; [now split |].
  split; simpl.
  - now apply NoDup_add.
  - intros y Hy. apply In_add in Hy as [Hy | ->]; auto.
Qed.

Lemma Fresh_rangeLoop (count : nat) (i : Z) (o : Outcome) :
  Fresh existingSet o -> Fresh existingSet (rangeLoop existingSet count i o).
Proof.
  revert i o. induction count as [| n IH]; intros i o Ho; simpl.
  - assumption.
  - apply IH. now apply Fresh_consider.
Qed.

(** The error counters are out of the reach of the range loop. *)
Lemma rangeLoop_errors (count : nat) (i : Z) (o : Outcome) :
  let o' := rangeLoop existingSet count i o in
  rangeFormatErrors o' = rangeFormatErrors o
  /\ rangeSizeErrors o' = rangeSizeErrors o
  /\ singleFormatErrors o' = singleFormatErrors o.
Proof.
  revert i o. induction count as [| n IH]; intros i o; simpl.
  - auto.
  - destruct (IH (i + 1) (consider existingSet (bondStr i) o)) as (H1 & H2 & H3).
    rewrite H1, H2, H3. unfold consider.
    destruct (has existingSet _ || has (validNewBonds o) _); simpl; auto.
Qed.

Lemma Fresh_processSegment (segment : string) (o : Outcome) :
  Fresh existingSet o -> Fresh existingSet (processSegment existingSet segment o).
Proof.
  intros Ho. unfold processSegment.
  destruct (rangeMatch segment) as [[startStr endStr] |].
  - destruct (parseInt startStr >? parseInt endStr);
      match goal with
      | |- context [if ?c then _ else _] => destruct c
      end; try exact Ho; now apply Fresh_rangeLoop.
  - destruct (includes segment "-"); [exact Ho |].
    destruct (singleTest segment); [now apply Fresh_consider | exact Ho].
Qed.

Lemma Fresh_scan (segments : list string) (o : Outcome) :
  Fresh existingSet o ->
  Fresh existingSet (fold_left (fun o segment => processSegment existingSet segment o) segments o).
Proof.
  revert o. induction segments as [| seg rest IH]; intros o Ho; simpl.
  - assumption.
  - apply IH. now apply Fresh_processSegment.
Qed.

End Scan.

(* ================================================================== *)
(** ** The handler of [src/index.tsx] *)
(* ================================================================== *)

Section Handler.
Import JS Index.

Lemma size_positive (set : JSSet) : (size set >? 0) = true <-> set <> [].
Proof.
  unfold size. destruct set as [| x xs]; simpl.
  - split; [discriminate | congruence].
  - split; [discriminate | intros _; reflexivity].
Qed.

Lemma size_zero (set : JSSet) : (size set >? 0) = false <-> set = [].
Proof.
  unfold size. destruct set as [| x xs]; simpl.
  - split; reflexivity.
  - split; discriminate.
Qed.

(** The accepted set of a call is new to the collection and free of
    repetitions. *)
Lemma Fresh_ingest (bondList : list string) (input : string) :
  Fresh (newSet bondList) (ingest bondList input).
Proof. unfold ingest. apply Fresh_scan, Fresh_noOutcome. Qed.

(** The collection after the handler, in one equation. *)
Lemma bonds_handleProcessInput (now : Z) (st : State) :
  bonds (handleProcessInput now st) =
    if truthy (trim (inputValue st))
       && (size (validNewBonds (ingest (bonds st) (inputValue st))) >? 0)
    then rev (validNewBonds (ingest (bonds st) (inputValue st))) ++ bonds st
    else bonds st.
Proof.
  unfold handleProcessInput.
  destruct (truthy (trim (inputValue st))); simpl; [| reflexivity].
  destruct (size (validNewBonds (ingest (bonds st) (inputValue st))) >? 0);
    [reflexivity |].
  destruct (_ && _); [reflexivity |].
  destruct (_ >? 0); reflexivity.
Qed.

Lemma NoDup_handleProcessInput (now : Z) (st : State) :
  NoDup (bonds st) -> NoDup (bonds (handleProcessInput now st)).
Proof.
  intros Hnd. rewrite bonds_handleProcessInput.
  destruct (_ && _); [| assumption].
  destruct (Fresh_ingest (bonds st) (inputValue st)) as [Hacc Hex].
  apply NoDup_app; [now apply NoDup_rev | assumption |].
  intros x Hx Hin. apply in_rev in Hx.
  specialize (Hex x Hx). rewrite has_newSet in Hex.
  apply has_false_In in Hex. contradiction.
Qed.

Lemma NoDup_ingestAll (inputs : list (Z * string)) (st : State) :
  NoDup (bonds st) -> NoDup (bonds (ingestAll inputs st)).
Proof.
  revert st. induction inputs as [| [now text] rest IH]; intros st Hnd; simpl.
  - assumption.
  - apply IH. now apply NoDup_handleProcessInput.
Qed.

End Handler.

(* ================================================================== *)
(** ** Digits, [parseInt] and [toString] *)
(* ================================================================== *)

Section Digits.
Import JS.

Ltac by_cases_on_char c :=
  destruct c as [[] [] [] [] [] [] [] []]; vm_compute; intuition congruence.

Lemma digit_value (c : ascii) : isDigit c = true -> 0 <= code c - 48 <= 9.
Proof.
  unfold isDigit. intros H. apply andb_true_iff in H as [H1 H2].
  apply Z.leb_le in H1, H2. lia.
Qed.

Lemma digit_not_space (c : ascii) : isDigit c = true -> isSpace c = false.
Proof. by_cases_on_char c. Qed.

Lemma digit_not_separator (c : ascii) : isDigit c = true -> Index.isSeparator c = false.
Proof. by_cases_on_char c. Qed.

Lemma digitChar_of_digit (c : ascii) : isDigit c = true -> digitChar (code c - 48) = c.
Proof. by_cases_on_char c. Qed.

Lemma digitChar_spec (d : Z) :
  0 <= d <= 9 -> isDigit (digitChar d) = true /\ code (digitChar d) - 48 = d.
Proof.
  intros H.
  assert (d = 0 \/ d = 1 \/ d = 2 \/ d = 3 \/ d = 4 \/ d = 5 \/ d = 6 \/ d = 7
          \/ d = 8 \/ d = 9) as Hd by lia.
  repeat (destruct Hd as [-> | Hd]; [now vm_compute |]). subst d. now vm_compute.
Qed.

Lemma everyChar_app (p : ascii -> bool) (s t : string) :
  everyChar p (String.append s t) = everyChar p s && everyChar p t.
Proof.
  induction s as [| c r IH]; simpl; [reflexivity |].
  rewrite IH. apply andb_assoc.
Qed.

Lemma length_append (s t : string) :
  String.length (String.append s t) = (String.length s + String.length t)%nat.
Proof. induction s as [| c r IH]; simpl; [reflexivity | now rewrite IH]. Qed.

Lemma append_empty_r (s : string) : String.append s EmptyString = s.
Proof. induction s as [| c r IH]; simpl; [reflexivity | now rewrite IH]. Qed.

Lemma append_assoc (s t u : string) :
  String.append (String.append s t) u = String.append s (String.append t u).
Proof. induction s as [| c r IH]; simpl; [reflexivity | now rewrite IH]. Qed.

(** *** [parseInt] on strings of digits: positional notation *)

Lemma parseDigits_app (s t : string) (k : Z) :
  everyChar isDigit s = true ->
  parseDigits k (String.append s t) = parseDigits (parseDigits k s) t.
Proof.
  revert k. induction s as [| c r IH]; intros k H; simpl in *; [reflexivity |].
  apply andb_true_iff in H as [Hc Hr]. rewrite Hc. now apply IH.
Qed.

Lemma parseDigits_positional (s : string) (k : Z) :
  everyChar isDigit s = true ->
  parseDigits k s = k * 10 ^ Z.of_nat (String.length s) + parseDigits 0 s
  /\ 0 <= parseDigits 0 s < 10 ^ Z.of_nat (String.length s).
Proof.
  revert k. induction s as [| c r IH]; intros k H.
  - simpl. lia.
  - simpl in H. apply andb_true_iff in H as [Hc Hr].
    cbn [parseDigits String.length]. rewrite Hc.
    destruct (IH (10 * k + (code c - 48)) Hr) as [E1 _].
    destruct (IH (10 * 0 + (code c - 48)) Hr) as [E0 B].
    pose proof (digit_value c Hc) as Hv.
    rewrite Nat2Z.inj_succ, Z.pow_succ_r by lia.
    rewrite E1, E0. set (P := 10 ^ Z.of_nat (String.length r)) in *.
    split; [ring |].
    clearbody P. clear IH E1 E0. set (v := code c - 48) in *. clearbody v. nia.
Qed.

Lemma parseInt_bound (s : string) :
  everyChar isDigit s = true -> 0 <= parseInt s < 10 ^ Z.of_nat (String.length s).
Proof. intros H. now apply (parseDigits_positional s 0). Qed.

(** Two numerals of the same width with the same value are the same
    string. *)
Lemma parseInt_inj (s t : string) :
  everyChar isDigit s = true -> everyChar isDigit t = true ->
  String.length s = String.length t ->
  parseInt s = parseInt t -> s = t.
Proof.
  unfold parseInt. revert t.
  induction s as [| c r IH]; intros [| d u] Hs Ht Hlen Hval; try discriminate.
  - reflexivity.
  - simpl in Hs, Ht. apply andb_true_iff in Hs as [Hc Hr], Ht as [Hd Hu].
    injection Hlen as Hlen.
    cbn [parseDigits] in Hval. rewrite Hc, Hd in Hval.
    destruct (parseDigits_positional r (10 * 0 + (code c - 48)) Hr) as [E1 B1].
    destruct (parseDigits_positional u (10 * 0 + (code d - 48)) Hu) as [E2 B2].
    rewrite E1, E2, Hlen in Hval. rewrite Hlen in B1.
    pose proof (digit_value c Hc) as Hvc. pose proof (digit_value d Hd) as Hvd.
    assert (code c - 48 = code d - 48 /\ parseDigits 0 r = parseDigits 0 u) as [Hcd Hru].
    { set (P := 10 ^ Z.of_nat (String.length u)) in *. clearbody P.
      set (v := code c - 48) in *. set (w := code d - 48) in *.
      set (x := parseDigits 0 r) in *. set (y := parseDigits 0 u) in *.
      clearbody v w x y. clear - Hval B1 B2 Hvc Hvd.
      assert (v = w) by nia. subst w. split; [reflexivity | lia]. }
    f_equal.
    + rewrite <- (digitChar_of_digit c Hc), <- (digitChar_of_digit d Hd). now rewrite Hcd.
    + now apply IH.
Qed.

(** *** [toString] and [padStart] *)

Lemma digitsOf_acc (fuel : nat) (n : Z) (acc : string) :
  digitsOf fuel n acc = String.append (digitsOf fuel n EmptyString) acc.
Proof.
  revert n acc. induction fuel as [| f IH]; intros n acc; simpl; [reflexivity |].
  destruct (n / 10 =? 0); [reflexivity |].
  rewrite IH. rewrite (IH _ (String _ EmptyString)).
  now rewrite append_assoc.
Qed.

Lemma one_digit (d : Z) :
  0 <= d <= 9 ->
  everyChar isDigit (String (digitChar d) EmptyString) = true
  /\ parseDigits 0 (String (digitChar d) EmptyString) = d.
Proof.
  intros H. destruct (digitChar_spec d H) as [Hd Hv]. simpl.
  rewrite Hd. split; [reflexivity | lia].
Qed.

Lemma digitsOf_spec (fuel : nat) (n : Z) :
  0 <= n < 2 ^ (Z.of_nat fuel + 1) ->
  everyChar isDigit (digitsOf fuel n EmptyString) = true
  /\ parseInt (digitsOf fuel n EmptyString) = n.
Proof.
  unfold parseInt. revert n. induction fuel as [| f IH]; intros n Hn.
  - change (2 ^ (Z.of_nat 0 + 1)) with 2 in Hn. cbn [digitsOf].
    rewrite Z.mod_small by lia. apply one_digit. lia.
  - cbn [digitsOf]. destruct (n / 10 =? 0) eqn:E.
    + apply Z.eqb_eq in E.
      assert (n < 10) by (apply Z.div_small_iff in E; lia).
      rewrite Z.mod_small by lia. apply one_digit. lia.
    + rewrite digitsOf_acc.
      assert (0 <= n / 10 < 2 ^ (Z.of_nat f + 1)) as Hq.
      { split; [apply Z.div_pos; lia |].
        apply Z.div_lt_upper_bound; [lia |].
        replace (Z.of_nat (S f) + 1) with (Z.succ (Z.of_nat f + 1)) in Hn by lia.
        rewrite Z.pow_succ_r in Hn by lia. lia. }
      destruct (IH _ Hq) as [Hd Hv].
      assert (0 <= n mod 10 <= 9) as Hm by (pose proof (Z.mod_pos_bound n 10); lia).
      destruct (digitChar_spec _ Hm) as [Hd1 Hv1].
      rewrite everyChar_app, Hd. cbn [everyChar]. rewrite Hd1. split; [reflexivity |].
      rewrite parseDigits_app by assumption. rewrite Hv.
      cbn [parseDigits]. rewrite Hd1, Hv1.
      pose proof (Z.div_mod n 10). lia.
Qed.

Lemma digitsOf_length (fuel : nat) (n : Z) (k : nat) :
  (1 <= k)%nat -> 0 <= n < 10 ^ Z.of_nat k ->
  (String.length (digitsOf fuel n EmptyString) <= k)%nat.
Proof.
  revert n k. induction fuel as [| f IH]; intros n k Hk Hn; cbn [digitsOf].
  - simpl. lia.
  - destruct (n / 10 =? 0) eqn:E; [simpl; lia |].
    apply Z.eqb_neq in E. rewrite digitsOf_acc, length_append. simpl.
    assert (10 <= n) as Hge.
    { destruct (Z_lt_le_dec n 10) as [Hlt | Hge]; [| assumption].
      rewrite Z.div_small in E by lia. congruence. }
    destruct k as [| [| k']]; [lia | simpl in Hn; lia |].
    assert (String.length (digitsOf f (n / 10) EmptyString) <= S k')%nat; [| lia].
    apply IH; [lia |]. split; [apply Z.div_pos; lia |].
    apply Z.div_lt_upper_bound; [lia |].
    rewrite (Nat2Z.inj_succ (S k')), Z.pow_succ_r in Hn by lia. lia.
Qed.

Lemma toString_natural (n : Z) :
  0 <= n -> toString n = digitsOf (Z.to_nat (Z.log2 n)) n EmptyString.
Proof.
  intros H. unfold toString. destruct (n <? 0) eqn:E; [| reflexivity].
  apply Z.ltb_lt in E. lia.
Qed.

Lemma toString_spec (n : Z) :
  0 <= n -> everyChar isDigit (toString n) = true /\ parseInt (toString n) = n.
Proof.
  intros H. rewrite toString_natural by assumption. apply digitsOf_spec.
  rewrite Z2Nat.id by apply Z.log2_nonneg.
  destruct (Z.eq_dec n 0) as [-> | Hne]; [now vm_compute |].
  pose proof (Z.log2_spec n). lia.
Qed.

Lemma fillTo_zeros (n : nat) (rest : string) :
  rest = "0" \/ rest = EmptyString ->
  String.length (fillTo n "0" rest) = n
  /\ everyChar isDigit (fillTo n "0" rest) = true
  /\ parseDigits 0 (fillTo n "0" rest) = 0.
Proof.
  revert rest. induction n as [| m IH]; intros rest Hrest; [now simpl |].
  destruct Hrest as [-> | ->]; cbn [fillTo];
    destruct (IH EmptyString (or_intror eq_refl)) as (H1 & H2 & H3);
    cbn [String.length everyChar parseDigits];
    change (isDigit "0") with true; cbv iota;
    change (10 * 0 + (code "0" - 48)) with 0;
    rewrite H1, H2, H3; auto.
Qed.

(** The identifier of a number: a numeral of that number, seven digits
    wide when the number is below ten millions. *)
Lemma bondStr_spec (i : Z) :
  0 <= i ->
  everyChar isDigit (Index.bondStr i) = true
  /\ parseInt (Index.bondStr i) = i
  /\ (i < 10 ^ 7 -> String.length (Index.bondStr i) = 7%nat).
Proof.
  intros Hi. destruct (toString_spec i Hi) as [Hd Hv].
  unfold Index.bondStr, padStart.
  destruct (7 <=? String.length (toString i))%nat eqn:E.
  - repeat split; try assumption.
    intros Hlt. apply Nat.leb_le in E.
    pose proof (digitsOf_length (Z.to_nat (Z.log2 i)) i 7) as Hlen.
    rewrite <- toString_natural in Hlen by assumption.
    specialize (Hlen ltac:(lia) ltac:(simpl; lia)). lia.
  - apply Nat.leb_gt in E.
    destruct (fillTo_zeros (7 - String.length (toString i)) "0" (or_introl eq_refl))
      as (H1 & H2 & H3).
    rewrite everyChar_app, H2, Hd. repeat split.
    + unfold parseInt. rewrite parseDigits_app by assumption. now rewrite H3.
    + intros _. rewrite length_append, H1. lia.
Qed.

(** *** The pattern [\d{n}] *)

Lemma digitsN_sound (n : nat) (s d rest : string) :
  digitsN n s = Some (d, rest) ->
  s = String.append d rest /\ String.length d = n /\ everyChar isDigit d = true.
Proof.
  revert s d rest. induction n as [| m IH]; intros s d rest H; simpl in H.
  - injection H as <- <-. now simpl.
  - destruct s as [| c r]; [discriminate |].
    destruct (isDigit c) eqn:Ec; [| discriminate].
    destruct (digitsN m r) as [[d' rest'] |] eqn:Er; [| discriminate].
    injection H as <- <-. destruct (IH _ _ _ Er) as (-> & Hl & Hd).
    simpl. rewrite Ec, Hl, Hd. auto.
Qed.

Lemma digitsN_complete (d rest : string) :
  everyChar isDigit d = true ->
  digitsN (String.length d) (String.append d rest) = Some (d, rest).
Proof.
  induction d as [| c r IH]; intros H; simpl in *; [reflexivity |].
  apply andb_true_iff in H as [Hc Hr]. now rewrite Hc, IH.
Qed.

(** [/^\d{7}$/] accepts the strings of seven digits. *)
Lemma singleTest_spec (s : string) :
  singleTest s = true <-> String.length s = 7%nat /\ everyChar isDigit s = true.
Proof.
  unfold singleTest. split.
  - destruct (digitsN 7 s) as [[d rest] |] eqn:E; [| discriminate].
    destruct rest; [| discriminate]. intros _.
    apply digitsN_sound in E as (-> & Hl & Hd).
    now rewrite append_empty_r.
  - intros [Hl Hd]. pose proof (digitsN_complete s EmptyString Hd) as H.
    rewrite Hl, append_empty_r in H. now rewrite H.
Qed.

(** An identifier is the numeral that [bondStr] writes for its value. *)
Lemma bondStr_parseInt (s : string) : singleTest s = true -> Index.bondStr (parseInt s) = s.
Proof.
  intros H. apply singleTest_spec in H as [Hl Hd].
  pose proof (parseInt_bound s Hd) as Hb. rewrite Hl in Hb.
  destruct (bondStr_spec (parseInt s) (proj1 Hb)) as (Hd' & Hv & Hl').
  apply parseInt_inj; try assumption.
  rewrite Hl' by apply Hb. now rewrite Hl.
Qed.

End Digits.

(* ================================================================== *)
(** ** Tokens: [split], [trim] and the range pattern *)
(* ================================================================== *)

Section Tokens.
Import JS.

Lemma string_of_list_ascii_snoc (l : list ascii) (c : ascii) (s : string) :
  String.append (string_of_list_ascii (l ++ [c])) s
  = String.append (string_of_list_ascii l) (String c s).
Proof. induction l as [| d l IH]; simpl; [reflexivity | now rewrite IH]. Qed.

(** A string without separators is one piece. *)
Lemma splitRuns_piece (sep : ascii -> bool) (s : string) (inRun : bool) (cur : list ascii) :
  everyChar (fun c => negb (sep c)) s = true ->
  splitRuns sep inRun cur s = [String.append (string_of_list_ascii (rev cur)) s].
Proof.
  revert inRun cur. induction s as [| c r IH]; intros inRun cur H; simpl in *.
  - now rewrite append_empty_r.
  - apply andb_true_iff in H as [Hc Hr]. apply negb_true_iff in Hc. rewrite Hc.
    rewrite IH by assumption. simpl. now rewrite string_of_list_ascii_snoc.
Qed.

(** A separator ends the piece that is being read. *)
Lemma splitRuns_cut (sep : ascii -> bool) (s : string) (c : ascii) (rest : string)
      (inRun : bool) (cur : list ascii) :
  everyChar (fun c => negb (sep c)) s = true -> sep c = true ->
  (s = EmptyString -> inRun = false) ->
  splitRuns sep inRun cur (String.append s (String c rest))
  = String.append (string_of_list_ascii (rev cur)) s :: splitRuns sep true [] rest.
Proof.
  revert inRun cur. induction s as [| d r IH]; intros inRun cur H Hc Hrun; simpl in *.
  - rewrite Hc, (Hrun eq_refl). now rewrite append_empty_r.
  - apply andb_true_iff in H as [Hd Hr]. apply negb_true_iff in Hd. rewrite Hd.
    rewrite IH; try assumption; [| reflexivity].
    simpl. now rewrite string_of_list_ascii_snoc.
Qed.

Lemma trimEnd_id (s : string) :
  everyChar (fun c => negb (isSpace c)) s = true -> trimEnd s = s.
Proof.
  induction s as [| c r IH]; intros H; simpl in *; [reflexivity |].
  apply andb_true_iff in H as [Hc Hr]. apply negb_true_iff in Hc.
  rewrite IH, Hc by assumption. now destruct r.
Qed.

Lemma trimStart_id (s : string) :
  everyChar (fun c => negb (isSpace c)) s = true -> trimStart s = s.
Proof.
  destruct s as [| c r]; intros H; simpl in *; [reflexivity |].
  apply andb_true_iff in H as [Hc _]. apply negb_true_iff in Hc. now rewrite Hc.
Qed.

Lemma trim_id (s : string) :
  everyChar (fun c => negb (isSpace c)) s = true -> trim s = s.
Proof. intros H. unfold trim. rewrite trimStart_id by assumption. now apply trimEnd_id. Qed.

Lemma everyChar_weaken (p q : ascii -> bool) (s : string) :
  (forall c, p c = true -> q c = true) -> everyChar p s = true -> everyChar q s = true.
Proof.
  intros Hpq. induction s as [| c r IH]; simpl; [reflexivity |].
  intros H. apply andb_true_iff in H as [Hc Hr]. now rewrite (Hpq c Hc), IH.
Qed.

Lemma separator_of_space (c : ascii) : isSpace c = true -> Index.isSeparator c = true.
Proof. unfold Index.isSeparator. intros ->. now rewrite orb_true_r. Qed.

Lemma no_separator_no_space (s : string) :
  everyChar (fun c => negb (Index.isSeparator c)) s = true ->
  everyChar (fun c => negb (isSpace c)) s = true.
Proof.
  apply everyChar_weaken. intros c Hc. apply negb_true_iff in Hc. apply negb_true_iff.
  destruct (isSpace c) eqn:E; [| reflexivity].
  apply separator_of_space in E. congruence.
Qed.

(** Input that is one token: no separator in it, and not empty. *)
Lemma segmentsOf_token (s : string) :
  everyChar (fun c => negb (Index.isSeparator c)) s = true -> truthy s = true ->
  Index.segmentsOf s = [s].
Proof.
  intros Hs Ht. unfold Index.segmentsOf, splitClass.
  rewrite splitRuns_piece by assumption. simpl.
  rewrite trim_id by now apply no_separator_no_space. now rewrite Ht.
Qed.

(** Input that is two tokens with a comma between them. *)
Lemma segmentsOf_pair (s t : string) :
  everyChar (fun c => negb (Index.isSeparator c)) s = true -> truthy s = true ->
  everyChar (fun c => negb (Index.isSeparator c)) t = true -> truthy t = true ->
  Index.segmentsOf (String.append s (String "," t)) = [s; t].
Proof.
  intros Hs Hts Ht Htt. unfold Index.segmentsOf, splitClass.
  rewrite splitRuns_cut; try assumption; try reflexivity.
  rewrite splitRuns_piece by assumption. simpl.
  rewrite !trim_id by now apply no_separator_no_space. now rewrite Hts, Htt.
Qed.

Lemma digits_no_separator (s : string) :
  everyChar isDigit s = true ->
  everyChar (fun c => negb (Index.isSeparator c)) s = true.
Proof.
  apply everyChar_weaken. intros c Hc. now rewrite digit_not_separator.
Qed.

Lemma skipSpaces_digits (s : string) : everyChar isDigit s = true -> skipSpaces s = s.
Proof.
  destruct s as [| c r]; intros H; simpl in *; [reflexivity |].
  apply andb_true_iff in H as [Hc _]. now rewrite digit_not_space.
Qed.

(** The groups that the range pattern captures are identifiers. *)
Lemma rangeMatch_sound (s a b : string) :
  rangeMatch s = Some (a, b) -> singleTest a = true /\ singleTest b = true.
Proof.
  unfold rangeMatch. intros H.
  destruct (digitsN 7 s) as [[a' r1] |] eqn:E1; [| discriminate].
  destruct (skipSpaces r1) as [| c r2]; [discriminate |].
  destruct (Ascii.eqb c "-") eqn:Ec.
  - apply Ascii.eqb_eq in Ec. subst c.
    destruct (digitsN 7 (skipSpaces r2)) as [[b' r3] |] eqn:E2; [| discriminate].
    destruct r3; [| discriminate]. injection H as <- <-.
    apply digitsN_sound in E1 as (_ & Hla & Hda), E2 as (_ & Hlb & Hdb).
    split; apply singleTest_spec; auto.
  - exfalso. apply Ascii.eqb_neq in Ec.
    destruct c as [[] [] [] [] [] [] [] []]; try discriminate. now apply Ec.
Qed.

(** Two identifiers with a hyphen between them match the range pattern. *)
Lemma rangeMatch_hyphen (a b : string) :
  singleTest a = true -> singleTest b = true ->
  rangeMatch (String.append a (String "-" b)) = Some (a, b).
Proof.
  intros Ha Hb. apply singleTest_spec in Ha as [Hla Hda], Hb as [Hlb Hdb].
  unfold rangeMatch.
  pose proof (digitsN_complete a (String "-" b) Hda) as E1. rewrite Hla in E1.
  rewrite E1. cbn [skipSpaces]. change (isSpace "-") with false. cbv iota.
  rewrite skipSpaces_digits by assumption.
  pose proof (digitsN_complete b EmptyString Hdb) as E2.
  rewrite Hlb, append_empty_r in E2. now rewrite E2.
Qed.

Lemma range_token (a b : string) :
  singleTest a = true -> singleTest b = true ->
  Index.segmentsOf (String.append a (String "-" b)) = [String.append a (String "-" b)].
Proof.
  intros Ha Hb. apply singleTest_spec in Ha as [Hla Hda], Hb as [Hlb Hdb].
  apply segmentsOf_token.
  - rewrite everyChar_app. cbn [everyChar].
    rewrite !digits_no_separator by assumption. reflexivity.
  - destruct a; [discriminate | reflexivity].
Qed.

End Tokens.

(* ================================================================== *)
(** ** The expansion of a range *)
(* ================================================================== *)

Section Expansion.
Import JS Index.

Variable existingSet : JSSet.

Lemma In_upFrom (count : nat) (i k : Z) :
  In k (upFrom count i) <-> i <= k < i + Z.of_nat count.
Proof.
  revert i. induction count as [| c IH]; intros i.
  - simpl. lia.
  - cbn [upFrom In]. rewrite IH. lia.
Qed.

Lemma length_upFrom (count : nat) (i : Z) : List.length (upFrom count i) = count.
Proof. revert i. induction count as [| c IH]; intros i; simpl; [| rewrite IH]; reflexivity. Qed.

Lemma last_upFrom (count : nat) (i d : Z) :
  last (upFrom (S count) i) d = i + Z.of_nat count.
Proof.
  revert i. induction count as [| c IH]; intros i.
  - simpl. lia.
  - change (upFrom (S (S c)) i) with (i :: upFrom (S c) (i + 1)).
    change (last (i :: upFrom (S c) (i + 1)) d) with (last (upFrom (S c) (i + 1)) d).
    rewrite IH. lia.
Qed.

(** The range loop accepts, in ascending order, the candidates that the
    collection does not hold, and counts the others as duplicates: the
    identifiers accepted before the loop have values below its start, so
    that none of them can be met again. *)
Lemma rangeLoop_expansion (count : nat) (i : Z) (o : Outcome) :
  0 <= i ->
  (forall x, In x (validNewBonds o) -> parseInt x < i) ->
  validNewBonds (rangeLoop existingSet count i o) = validNewBonds o ++ newIds existingSet count i
  /\ duplicates (rangeLoop existingSet count i o)
     = duplicates o
       + Z.of_nat (List.length (filter (has existingSet) (map bondStr (upFrom count i)))).
Proof.
  unfold newIds. revert i o. induction count as [| c IH]; intros i o Hi Hlow.
  - simpl. rewrite app_nil_r. split; [reflexivity | lia].
  - cbn [rangeLoop upFrom map filter].
    destruct (bondStr_spec i Hi) as (_ & Hv & _).
    assert (has (validNewBonds o) (bondStr i) = false) as Hacc.
    { apply has_false_In. intros Hin. apply Hlow in Hin. lia. }
    destruct (has existingSet (bondStr i)) eqn:Hex; cbn [negb].
    + rewrite consider_known by (rewrite Hex; reflexivity).
      destruct (IH (i + 1)
                   {| validNewBonds := validNewBonds o;
                      duplicates := duplicates o + 1;
                      rangeFormatErrors := rangeFormatErrors o;
                      rangeSizeErrors := rangeSizeErrors o;
                      singleFormatErrors := singleFormatErrors o |}) as [E1 E2].
      * lia.
      * cbn [validNewBonds]. intros x Hx. apply Hlow in Hx. lia.
      * rewrite E1, E2. cbn [validNewBonds duplicates List.length]. split; [reflexivity | lia].
    + rewrite consider_new by assumption.
      destruct (IH (i + 1)
                   {| validNewBonds := validNewBonds o ++ [bondStr i];
                      duplicates := duplicates o;
                      rangeFormatErrors := rangeFormatErrors o;
                      rangeSizeErrors := rangeSizeErrors o;
                      singleFormatErrors := singleFormatErrors o |}) as [E1 E2].
      * lia.
      * cbn [validNewBonds]. intros x Hx. apply in_app_iff in Hx as [Hx | [<- | []]].
        -- apply Hlow in Hx. lia.
        -- lia.
      * rewrite E1, E2. cbn [validNewBonds duplicates].
        rewrite <- app_assoc. split; reflexivity.
Qed.

(** The new identifiers of a range are in ascending order of value. *)
Lemma news_ascending (count : nat) (i : Z) :
  0 <= i -> StronglySorted valueLt (newIds existingSet count i).
Proof.
  unfold newIds. revert i. induction count as [| c IH]; intros i Hi.
  - constructor.
  - cbn [upFrom map filter].
    destruct (negb (has existingSet (bondStr i))); [| apply IH; lia].
    constructor; [apply IH; lia |].
    apply Forall_forall. intros x Hx.
    apply filter_In in Hx as [Hx _]. apply in_map_iff in Hx as (k & <- & Hk).
    apply In_upFrom in Hk. unfold valueLt.
    destruct (bondStr_spec i Hi) as (_ & -> & _).
    destruct (bondStr_spec k ltac:(lia)) as (_ & -> & _). lia.
Qed.

End Expansion.

Section SortedLists.

Variable A : Type.
Variable R : A -> A -> Prop.

Lemma last_In (l : list A) (d : A) : l <> [] -> In (last l d) l.
Proof.
  induction l as [| a [| b l'] IH]; intros H; [congruence | now left |].
  right. apply IH. discriminate.
Qed.

(** In a sorted list every element is the last one or before it. *)
Lemma sorted_last (l : list A) (d x : A) :
  StronglySorted R l -> In x l -> x = last l d \/ R x (last l d).
Proof.
  induction 1 as [| a l' Hs IH Hall]; intros Hx; [destruct Hx |].
  destruct l' as [| b l'']; [destruct Hx as [-> | []]; now left |].
  change (last (a :: b :: l'') d) with (last (b :: l'') d).
  destruct Hx as [<- | Hx]; [| now apply IH].
  right. rewrite Forall_forall in Hall. apply Hall, last_In. discriminate.
Qed.

(** And every element is the first one or after it. *)
Lemma sorted_first (l : list A) (d x : A) :
  StronglySorted R l -> In x l -> x = hd d l \/ R (hd d l) x.
Proof.
  intros Hs Hx. destruct Hs as [| a l' Hs Hall]; [destruct Hx |].
  destruct Hx as [<- | Hx]; [now left | right].
  rewrite Forall_forall in Hall. now apply Hall.
Qed.

Lemma hd_rev_app (l l' : list A) (d : A) : l <> [] -> hd d (rev l ++ l') = last l d.
Proof.
  intros H. destruct (exists_last H) as (l0 & a & ->).
  now rewrite rev_app_distr, last_last.
Qed.

Lemma last_rev (l : list A) (d : A) : last (rev l) d = hd d l.
Proof.
  destruct l as [| a l']; [reflexivity |]. simpl. apply last_last.
Qed.

End SortedLists.

(* ================================================================== *)
(** ** Blank input, counters, and input that is one range *)
(* ================================================================== *)

Section Inputs.
Import JS Index.

Lemma trimEnd_empty (s : string) : trimEnd s = EmptyString -> everyChar isSpace s = true.
Proof.
  induction s as [| c r IH]; simpl; [reflexivity |].
  destruct (trimEnd r); [| discriminate].
  destruct (isSpace c); [| discriminate]. intros _. now rewrite IH.
Qed.

Lemma trimStart_spaces (s : string) :
  everyChar isSpace (trimStart s) = true -> everyChar isSpace s = true.
Proof.
  induction s as [| c r IH]; simpl; [reflexivity |].
  destruct (isSpace c) eqn:E; [exact IH |]. simpl. now rewrite E.
Qed.

Lemma splitRuns_separators (sep : ascii -> bool) (s : string) (inRun : bool) :
  everyChar sep s = true ->
  Forall (eq EmptyString) (splitRuns sep inRun [] s).
Proof.
  revert inRun. induction s as [| c r IH]; intros inRun H; simpl in *.
  - now repeat constructor.
  - apply andb_true_iff in H as [Hc Hr]. rewrite Hc.
    destruct inRun; [| constructor; [reflexivity |]]; now apply IH.
Qed.

(** Blank input has no token. *)
Lemma blank_no_segments (input : string) :
  truthy (trim input) = false -> segmentsOf input = [].
Proof.
  intros H. assert (trim input = EmptyString) as E by now destruct (trim input).
  apply trimEnd_empty, trimStart_spaces in E.
  apply (everyChar_weaken _ isSeparator _ separator_of_space) in E.
  unfold segmentsOf, splitClass.
  pose proof (splitRuns_separators isSeparator input false E) as Hall.
  induction Hall as [| p ps <- _ IH]; [reflexivity | exact IH].
Qed.

Lemma blank_no_outcome (bondList : list string) (input : string) :
  truthy (trim input) = false -> ingest bondList input = noOutcome.
Proof. intros H. unfold ingest. now rewrite blank_no_segments. Qed.

Lemma Counted_consider (existingSet : JSSet) (x : string) (o : Outcome) :
  Counted o -> Counted (consider existingSet x o).
Proof.
  unfold Counted, consider. intros (H1 & H2 & H3 & H4).
  destruct (_ || _); cbn; repeat split; lia.
Qed.

Lemma Counted_rangeLoop (existingSet : JSSet) (count : nat) (i : Z) (o : Outcome) :
  Counted o -> Counted (rangeLoop existingSet count i o).
Proof.
  revert i o. induction count as [| c IH]; intros i o Ho; simpl; [assumption |].
  apply IH. now apply Counted_consider.
Qed.

Lemma Counted_processSegment (existingSet : JSSet) (segment : string) (o : Outcome) :
  Counted o -> Counted (processSegment existingSet segment o).
Proof.
  intros Ho. pose proof Ho as (H1 & H2 & H3 & H4). unfold processSegment.
  destruct (rangeMatch segment) as [[startStr endStr] |].
  - destruct (parseInt startStr >? parseInt endStr);
      match goal with
      | |- context [if ?c then _ else _] => destruct c
      end; try (now apply Counted_rangeLoop); unfold Counted; cbn; repeat split; lia.
  - destruct (includes segment "-"); [unfold Counted; cbn; repeat split; lia |].
    destruct (singleTest segment); [now apply Counted_consider |].
    unfold Counted; cbn; repeat split; lia.
Qed.

Lemma Counted_ingest (bondList : list string) (input : string) :
  Counted (ingest bondList input).
Proof.
  unfold ingest. generalize (segmentsOf input) as segments.
  assert (Counted noOutcome) as H0 by (unfold Counted; cbn; lia).
  revert H0. generalize noOutcome as o. intros o Ho segments. revert o Ho.
  induction segments as [| seg rest IH]; intros o Ho; simpl; [assumption |].
  apply IH. now apply Counted_processSegment.
Qed.

(** The range branch of the callback, with the swap written as a minimum
    and a maximum. *)
Lemma processSegment_range (existingSet : JSSet) (segment a b : string) (o : Outcome) :
  rangeMatch segment = Some (a, b) ->
  processSegment existingSet segment o =
    let lo := Z.min (parseInt a) (parseInt b) in
    let hi := Z.max (parseInt a) (parseInt b) in
    if hi - lo >? MAX_RANGE_SIZE then
      {| validNewBonds := validNewBonds o;
         duplicates := duplicates o;
         rangeFormatErrors := rangeFormatErrors o;
         rangeSizeErrors := rangeSizeErrors o + 1;
         singleFormatErrors := singleFormatErrors o |}
    else rangeLoop existingSet (Z.to_nat (hi - lo + 1)) lo o.
Proof.
  intros H. unfold processSegment. rewrite H. cbv zeta.
  destruct (parseInt a >? parseInt b) eqn:E.
  - apply Z.gtb_lt in E. rewrite Z.min_r, Z.max_l by lia. reflexivity.
  - rewrite Z.gtb_ltb in E. apply Z.ltb_ge in E.
    rewrite Z.min_l, Z.max_r by lia. reflexivity.
Qed.

(** Input that is one token. *)
Lemma ingest_token (bondList : list string) (input : string) :
  segmentsOf input = [input] ->
  ingest bondList input = processSegment (newSet bondList) input noOutcome.
Proof. intros H. unfold ingest. now rewrite H. Qed.

Lemma filter_all (A : Type) (p : A -> bool) (l : list A) :
  (forall x, In x l -> p x = true) -> filter p l = l.
Proof.
  induction l as [| a l' IH]; intros H; simpl; [reflexivity |].
  rewrite (H a (or_introl eq_refl)), IH; [reflexivity |].
  intros x Hx. apply H. now right.
Qed.

Lemma filter_none (A : Type) (p : A -> bool) (l : list A) :
  (forall x, In x l -> p x = false) -> filter p l = [].
Proof.
  induction l as [| a l' IH]; intros H; simpl; [reflexivity |].
  rewrite (H a (or_introl eq_refl)), IH; [reflexivity |].
  intros x Hx. apply H. now right.
Qed.

Lemma last_map (A B : Type) (f : A -> B) (l : list A) (d : A) (d' : B) :
  l <> [] -> last (map f l) d' = f (last l d).
Proof.
  induction l as [| a [| b l'] IH]; intros H; [congruence | reflexivity |].
  change (last (map f (a :: b :: l')) d') with (last (map f (b :: l')) d').
  change (last (a :: b :: l') d) with (last (b :: l') d).
  apply IH. discriminate.
Qed.

(** The accepted set and the duplicates of input that is the one range
    [a-b] within the cap. *)
Lemma ingest_range (bondList : list string) (a b : string) :
  singleTest a = true -> singleTest b = true ->
  let lo := Z.min (parseInt a) (parseInt b) in
  let hi := Z.max (parseInt a) (parseInt b) in
  hi - lo <= MAX_RANGE_SIZE ->
  let o := ingest bondList (String.append a (String "-" b)) in
  validNewBonds o
  = filter (fun x => negb (has (newSet bondList) x))
           (map bondStr (upFrom (Z.to_nat (hi - lo + 1)) lo))
  /\ duplicates o
     = Z.of_nat (List.length (filter (has (newSet bondList))
                                      (map bondStr (upFrom (Z.to_nat (hi - lo + 1)) lo))))
  /\ hasFormatErrors o = false.
Proof.
  intros Ha Hb lo hi Hspan o. subst o.
  rewrite ingest_token by now apply range_token.
  rewrite (processSegment_range _ _ a b) by now apply rangeMatch_hyphen.
  cbv zeta. fold lo hi.
  destruct (hi - lo >? MAX_RANGE_SIZE) eqn:E; [apply Z.gtb_lt in E; lia |].
  apply singleTest_spec in Ha as [_ Hda], Hb as [_ Hdb].
  pose proof (parseInt_bound a Hda) as [Hpa _]. pose proof (parseInt_bound b Hdb) as [Hpb _].
  destruct (rangeLoop_expansion (newSet bondList) (Z.to_nat (hi - lo + 1)) lo noOutcome)
    as [E1 E2]; [lia | intros x [] |].
  rewrite E1, E2. cbn [validNewBonds duplicates app]. repeat split; try lia.
  unfold hasFormatErrors.
  destruct (rangeLoop_errors (newSet bondList) (Z.to_nat (hi - lo + 1)) lo noOutcome)
    as (-> & -> & ->). reflexivity.
Qed.

(** A call that accepts identifiers puts them, reversed, in front of the
    collection. *)
Lemma bonds_after_acceptance (now : Z) (st : State) :
  validNewBonds (ingest (bonds st) (inputValue st)) <> [] ->
  bonds (handleProcessInput now st)
  = rev (validNewBonds (ingest (bonds st) (inputValue st))) ++ bonds st.
Proof.
  intros Hacc. rewrite bonds_handleProcessInput.
  destruct (truthy (trim (inputValue st))) eqn:Hblank.
  - apply size_positive in Hacc. now rewrite Hacc.
  - rewrite blank_no_outcome in Hacc by assumption. now contradiction Hacc.
Qed.

End Inputs.

(* ================================================================== *)
(** ** More on single tokens and the parts of the message *)
(* ================================================================== *)

Section Singles.
Import JS Index.

Lemma digit_not_hyphen (c : ascii) : isDigit c = true -> "-"%char <> c.
Proof. intros H <-. discriminate H. Qed.

Lemma includes_hyphen_digits (s : string) :
  everyChar isDigit s = true -> includes s "-" = false.
Proof.
  induction s as [| c r IH]; intros H; [reflexivity |].
  simpl in H. apply andb_true_iff in H as [Hc Hr].
  cbn [includes prefix]. rewrite (IH Hr).
  destruct (ascii_dec "-" c) as [E | _]; [| reflexivity].
  now apply digit_not_hyphen in E.
Qed.

Lemma rangeMatch_single (s : string) : singleTest s = true -> rangeMatch s = None.
Proof.
  intros H. apply singleTest_spec in H as [Hl Hd].
  pose proof (digitsN_complete s EmptyString Hd) as E.
  rewrite Hl, append_empty_r in E. unfold rangeMatch. now rewrite E.
Qed.

(** The single branch of the callback. *)
Lemma processSegment_single (existingSet : JSSet) (x : string) (o : Outcome) :
  singleTest x = true -> processSegment existingSet x o = consider existingSet x o.
Proof.
  intros H. unfold processSegment. rewrite (rangeMatch_single x H), H.
  apply singleTest_spec in H as [_ Hd]. now rewrite includes_hyphen_digits.
Qed.

Lemma partsOf_nonempty (o : Outcome) :
  hasFormatErrors o = true -> (Z.of_nat (List.length (partsOf o)) >? 0) = true.
Proof.
  unfold hasFormatErrors, partsOf.
  destruct (duplicates o >? 0), (rangeSizeErrors o >? 0), (rangeFormatErrors o >? 0),
    (singleFormatErrors o >? 0); intros H; first [discriminate H | reflexivity].
Qed.

Lemma partsOf_empty (o : Outcome) :
  hasFormatErrors o = false -> (duplicates o >? 0) = false -> partsOf o = [].
Proof.
  unfold hasFormatErrors, partsOf. intros H ->.
  apply orb_false_iff in H as [H ->]. apply orb_false_iff in H as [-> ->]. reflexivity.
Qed.

End Singles.

(* ================================================================== *)
(** ** The properties of the specification, on [src/index.tsx] *)
(* ================================================================== *)

(** C3 (cap enforcement).  A range whose span, the greater bound minus the
    smaller one, is over [MAX_RANGE_SIZE] is rejected whole: the callback
    leaves the accepted set and every other counter as they were and adds
    exactly one to the count of oversized ranges. *)
Theorem oversized_range_rejected
        (existingSet : JS.JSSet) (segment a b : string) (o : Index.Outcome) :
  JS.rangeMatch segment = Some (a, b) ->
  Z.max (JS.parseInt a) (JS.parseInt b) - Z.min (JS.parseInt a) (JS.parseInt b)
    > Index.MAX_RANGE_SIZE ->
  Index.processSegment existingSet segment o =
    {| Index.validNewBonds := Index.validNewBonds o;
       Index.duplicates := Index.duplicates o;
       Index.rangeFormatErrors := Index.rangeFormatErrors o;
       Index.rangeSizeErrors := Index.rangeSizeErrors o + 1;
       Index.singleFormatErrors := Index.singleFormatErrors o |}.
Proof.
  intros Hm Hspan. rewrite (processSegment_range _ _ a b) by assumption. cbv zeta.
  destruct (_ >? Index.MAX_RANGE_SIZE) eqn:E; [reflexivity |].
  rewrite Z.gtb_ltb in E. apply Z.ltb_ge in E. lia.
Qed.

Lemma oversized_range_rejected_witness :
  Index.processSegment [] "0000000-0050001" Index.noOutcome =
    {| Index.validNewBonds := []; Index.duplicates := 0; Index.rangeFormatErrors := 0;
       Index.rangeSizeErrors := 1; Index.singleFormatErrors := 0 |}.
Proof.
  apply (oversized_range_rejected [] "0000000-0050001" "0000000" "0050001" Index.noOutcome).
  - reflexivity.
  - reflexivity.
Defined.

(** C5 (insertion ordering).  When a call accepts identifiers, the collection
    afterwards is the accepted identifiers in the reverse of the order of
    acceptance, as one block, followed by the collection as it was; the range
    "0000001-0000003" submitted to the empty collection leaves
    ["0000003"; "0000002"; "0000001"]. *)
Theorem accepted_block_prepended_reversed :
  (forall (now : Z) (st : Index.State),
      Index.validNewBonds (Index.ingest (Index.bonds st) (Index.inputValue st)) <> [] ->
      Index.bonds (Index.handleProcessInput now st)
      = rev (Index.validNewBonds (Index.ingest (Index.bonds st) (Index.inputValue st)))
        ++ Index.bonds st)
  /\ Index.bonds
       (Index.handleProcessInput 0
          {| Index.bonds := []; Index.inputValue := "0000001-0000003";
             Index.notifications := [] |})
     = ["0000003"; "0000002"; "0000001"].
Proof.
  split; [exact bonds_after_acceptance | reflexivity].
Qed.

Lemma accepted_block_prepended_reversed_witness :
  Index.bonds
    (Index.handleProcessInput 7
       {| Index.bonds := ["0000009"]; Index.inputValue := "0000002 0000001";
          Index.notifications := [] |})
  = ["0000001"; "0000002"; "0000009"].
Proof.
  apply (proj1 accepted_block_prepended_reversed 7
           {| Index.bonds := ["0000009"]; Index.inputValue := "0000002 0000001";
              Index.notifications := [] |}).
  discriminate.
Defined.

(** C10 (the collection changes on success only).  A call whose accepted set
    is empty, whatever the reason, leaves the collection as it was; blank
    input is such a call; and a call that changes the collection has
    accepted an identifier. *)
Theorem collection_changes_only_on_success (now : Z) (st : Index.State) :
  (Index.validNewBonds (Index.ingest (Index.bonds st) (Index.inputValue st)) = [] ->
   Index.bonds (Index.handleProcessInput now st) = Index.bonds st)
  /\ (JS.truthy (JS.trim (Index.inputValue st)) = false ->
      Index.validNewBonds (Index.ingest (Index.bonds st) (Index.inputValue st)) = []
      /\ Index.bonds (Index.handleProcessInput now st) = Index.bonds st)
  /\ (Index.bonds (Index.handleProcessInput now st) <> Index.bonds st ->
      Index.validNewBonds (Index.ingest (Index.bonds st) (Index.inputValue st)) <> []).
Proof.
  assert (Index.validNewBonds (Index.ingest (Index.bonds st) (Index.inputValue st)) = [] ->
          Index.bonds (Index.handleProcessInput now st) = Index.bonds st) as Hempty.
  { intros Hacc. rewrite bonds_handleProcessInput. apply size_zero in Hacc.
    rewrite Hacc. now rewrite andb_false_r. }
  split; [exact Hempty | split].
  - intros Hblank.
    assert (Index.validNewBonds (Index.ingest (Index.bonds st) (Index.inputValue st)) = [])
      as Hacc by now rewrite blank_no_outcome.
    split; [exact Hacc | exact (Hempty Hacc)].
  - intros Hchanged Hacc. apply Hchanged, Hempty, Hacc.
Qed.

Lemma collection_changes_only_on_success_witness :
  Index.bonds
    (Index.handleProcessInput 7
       {| Index.bonds := ["0000009"]; Index.inputValue := "0000009, 12-3456789, 0000000-0050001";
          Index.notifications := [] |})
  = ["0000009"].
Proof.
  apply (proj1 (collection_changes_only_on_success 7
           {| Index.bonds := ["0000009"];
              Index.inputValue := "0000009, 12-3456789, 0000000-0050001";
              Index.notifications := [] |})).
  reflexivity.
Defined.

(** C4 (inverted ranges).  A range token whose first bound is the greater one
    is treated as the token with the bounds exchanged: within the cap, the
    loop runs upwards from the second bound to the first.  The token
    "0000008-0000005" yields "0000005" to "0000008" in ascending order, and no
    error. *)
Theorem inverted_range_swapped :
  (forall (existingSet : JS.JSSet) (segment a b : string) (o : Index.Outcome),
      JS.rangeMatch segment = Some (a, b) ->
      JS.parseInt a > JS.parseInt b ->
      Index.processSegment existingSet segment o
      = Index.processSegment existingSet (String.append b (String "-" a)) o
      /\ (JS.parseInt a - JS.parseInt b <= Index.MAX_RANGE_SIZE ->
          Index.processSegment existingSet segment o
          = Index.rangeLoop existingSet (Z.to_nat (JS.parseInt a - JS.parseInt b + 1))
                            (JS.parseInt b) o))
  /\ Index.ingest [] "0000008-0000005"
     = {| Index.validNewBonds := ["0000005"; "0000006"; "0000007"; "0000008"];
          Index.duplicates := 0; Index.rangeFormatErrors := 0;
          Index.rangeSizeErrors := 0; Index.singleFormatErrors := 0 |}.
Proof.
  split; [| reflexivity].
  intros existingSet segment a b o Hm Hgt.
  destruct (rangeMatch_sound _ _ _ Hm) as [Ha Hb].
  rewrite (processSegment_range _ segment a b) by assumption.
  rewrite (processSegment_range _ _ b a) by now apply rangeMatch_hyphen.
  cbv zeta. rewrite (Z.min_comm (JS.parseInt b)), (Z.max_comm (JS.parseInt b)).
  split; [reflexivity |].
  intros Hspan. rewrite Z.min_r, Z.max_l by lia.
  destruct (_ >? Index.MAX_RANGE_SIZE) eqn:E; [| reflexivity].
  apply Z.gtb_lt in E. lia.
Qed.

Lemma inverted_range_swapped_witness :
  Index.processSegment ["0000006"] "0000008-0000005" Index.noOutcome
  = Index.processSegment ["0000006"] "0000005-0000008" Index.noOutcome.
Proof.
  refine (proj1 (proj1 inverted_range_swapped ["0000006"] "0000008-0000005" "0000008"
                       "0000005" Index.noOutcome _ _)).
  - reflexivity.
  - reflexivity.
Defined.

(** C7 (classification precedence).  The callback tries the strict range
    pattern first: a token that matches it touches neither count of malformed
    tokens.  A token that fails it and holds a hyphen is counted as a
    malformed range, whatever the single pattern would say; a token without a
    hyphen that fails the single pattern is counted as a malformed single.
    The token "12-3456789" is counted as a malformed range and not as a
    malformed single. *)
Theorem classification_precedence :
  (forall (existingSet : JS.JSSet) (segment a b : string) (o : Index.Outcome),
      JS.rangeMatch segment = Some (a, b) ->
      Index.rangeFormatErrors (Index.processSegment existingSet segment o)
      = Index.rangeFormatErrors o
      /\ Index.singleFormatErrors (Index.processSegment existingSet segment o)
         = Index.singleFormatErrors o)
  /\ (forall (existingSet : JS.JSSet) (segment : string) (o : Index.Outcome),
        JS.rangeMatch segment = None ->
        JS.includes segment "-" = true ->
        Index.processSegment existingSet segment o =
          {| Index.validNewBonds := Index.validNewBonds o;
             Index.duplicates := Index.duplicates o;
             Index.rangeFormatErrors := Index.rangeFormatErrors o + 1;
             Index.rangeSizeErrors := Index.rangeSizeErrors o;
             Index.singleFormatErrors := Index.singleFormatErrors o |})
  /\ (forall (existingSet : JS.JSSet) (segment : string) (o : Index.Outcome),
        JS.rangeMatch segment = None ->
        JS.includes segment "-" = false ->
        JS.singleTest segment = false ->
        Index.processSegment existingSet segment o =
          {| Index.validNewBonds := Index.validNewBonds o;
             Index.duplicates := Index.duplicates o;
             Index.rangeFormatErrors := Index.rangeFormatErrors o;
             Index.rangeSizeErrors := Index.rangeSizeErrors o;
             Index.singleFormatErrors := Index.singleFormatErrors o + 1 |})
  /\ Index.ingest [] "12-3456789"
     = {| Index.validNewBonds := []; Index.duplicates := 0; Index.rangeFormatErrors := 1;
          Index.rangeSizeErrors := 0; Index.singleFormatErrors := 0 |}.
Proof.
  repeat split.
  - rewrite (processSegment_range _ _ a b) by assumption. cbv zeta.
    destruct (_ >? Index.MAX_RANGE_SIZE); [reflexivity |].
    now destruct (rangeLoop_errors existingSet
                    (Z.to_nat (Z.max (JS.parseInt a) (JS.parseInt b)
                               - Z.min (JS.parseInt a) (JS.parseInt b) + 1))
                    (Z.min (JS.parseInt a) (JS.parseInt b)) o) as (-> & _ & _).
  - rewrite (processSegment_range _ _ a b) by assumption. cbv zeta.
    destruct (_ >? Index.MAX_RANGE_SIZE); [reflexivity |].
    now destruct (rangeLoop_errors existingSet
                    (Z.to_nat (Z.max (JS.parseInt a) (JS.parseInt b)
                               - Z.min (JS.parseInt a) (JS.parseInt b) + 1))
                    (Z.min (JS.parseInt a) (JS.parseInt b)) o) as (_ & _ & ->).
  - intros existingSet segment o Hm Hh. unfold Index.processSegment. now rewrite Hm, Hh.
  - intros existingSet segment o Hm Hh Hs. unfold Index.processSegment.
    now rewrite Hm, Hh, Hs.
Qed.

Lemma classification_precedence_witness :
  Index.processSegment ["0000001"] "12-3456789" Index.noOutcome =
    {| Index.validNewBonds := []; Index.duplicates := 0; Index.rangeFormatErrors := 0 + 1;
       Index.rangeSizeErrors := 0; Index.singleFormatErrors := 0 |}.
Proof.
  apply (proj1 (proj2 classification_precedence) ["0000001"] "12-3456789" Index.noOutcome).
  - reflexivity.
  - reflexivity.
Defined.

(** C8 (duplicates within one call).  An identifier that the collection does
    not hold, submitted twice in one input, is accepted once and counted once
    as a duplicate; so it is for "0000001,0000001" and the empty
    collection. *)
Theorem duplicate_within_one_call :
  (forall (bondList : list string) (x : string),
      JS.singleTest x = true -> ~ In x bondList ->
      Index.ingest bondList (String.append x (String "," x))
      = {| Index.validNewBonds := [x]; Index.duplicates := 1; Index.rangeFormatErrors := 0;
           Index.rangeSizeErrors := 0; Index.singleFormatErrors := 0 |})
  /\ Index.ingest [] "0000001,0000001"
     = {| Index.validNewBonds := ["0000001"]; Index.duplicates := 1;
          Index.rangeFormatErrors := 0; Index.rangeSizeErrors := 0;
          Index.singleFormatErrors := 0 |}.
Proof.
  split; [| reflexivity].
  intros bondList x Hx Hnew.
  pose proof (proj1 (singleTest_spec x) Hx) as [Hl Hd].
  assert (JS.truthy x = true) as Ht by (destruct x; [discriminate | reflexivity]).
  unfold Index.ingest.
  rewrite segmentsOf_pair by (try apply digits_no_separator; assumption).
  cbn [fold_left]. rewrite !processSegment_single by assumption.
  rewrite (consider_new _ x Index.noOutcome);
    [| rewrite has_newSet; now apply has_false_In | reflexivity].
  rewrite consider_known; [reflexivity |].
  apply orb_true_iff. right. apply has_In. now left.
Qed.

Lemma duplicate_within_one_call_witness :
  Index.ingest ["0000002"] "0000003,0000003"
  = {| Index.validNewBonds := ["0000003"]; Index.duplicates := 1; Index.rangeFormatErrors := 0;
       Index.rangeSizeErrors := 0; Index.singleFormatErrors := 0 |}.
Proof.
  apply (proj1 duplicate_within_one_call ["0000002"] "0000003").
  - reflexivity.
  - intros [H | []]. discriminate H.
Defined.

(** C9 (range inclusivity and padding).  The range [a-b] with [a] not above
    [b], within the cap and submitted to the empty collection, is expanded to
    the identifiers of every integer from the value of [a] to the value of
    [b], in ascending order and without duplicates: the first is [a] and the
    last is [b], and each is a string of seven digits, the number written
    with zeros in front.  "0000005-0000008" yields "0000005", "0000006",
    "0000007", "0000008"; 42 is written "0000042". *)
Theorem range_expansion_inclusive_padded :
  (forall a b : string,
      JS.singleTest a = true -> JS.singleTest b = true ->
      JS.parseInt a <= JS.parseInt b ->
      JS.parseInt b - JS.parseInt a <= Index.MAX_RANGE_SIZE ->
      let o := Index.ingest [] (String.append a (String "-" b)) in
      Index.validNewBonds o
      = map Index.bondStr (upFrom (Z.to_nat (JS.parseInt b - JS.parseInt a + 1)) (JS.parseInt a))
      /\ Index.duplicates o = 0
      /\ hd_error (Index.validNewBonds o) = Some a
      /\ last (Index.validNewBonds o) EmptyString = b
      /\ Forall (fun x => String.length x = 7%nat /\ everyChar JS.isDigit x = true
                          /\ Index.bondStr (JS.parseInt x) = x)
                (Index.validNewBonds o))
  /\ Index.ingest [] "0000005-0000008"
     = {| Index.validNewBonds := ["0000005"; "0000006"; "0000007"; "0000008"];
          Index.duplicates := 0; Index.rangeFormatErrors := 0;
          Index.rangeSizeErrors := 0; Index.singleFormatErrors := 0 |}
  /\ Index.bondStr 42 = "0000042".
Proof.
  split; [| split; reflexivity].
  intros a b Ha Hb Hle Hspan o.
  destruct (ingest_range [] a b Ha Hb) as (E1 & E2 & _).
  { rewrite Z.min_l, Z.max_r by lia. exact Hspan. }
  fold o in E1, E2. rewrite Z.min_l, Z.max_r in E1, E2 by lia.
  change (JS.newSet []) with (@nil string) in E1, E2.
  rewrite filter_all in E1 by reflexivity. rewrite filter_none in E2 by reflexivity.
  pose proof (proj1 (singleTest_spec a) Ha) as [Hla Hda].
  pose proof (proj1 (singleTest_spec b) Hb) as [Hlb Hdb].
  pose proof (parseInt_bound a Hda) as Hpa. pose proof (parseInt_bound b Hdb) as Hpb.
  rewrite Hlb in Hpb.
  rewrite E1, E2. split; [reflexivity | split; [reflexivity |]].
  replace (Z.to_nat (JS.parseInt b - JS.parseInt a + 1))
    with (S (Z.to_nat (JS.parseInt b - JS.parseInt a))) by lia.
  split; [| split].
  - cbn [upFrom map hd_error]. now rewrite bondStr_parseInt.
  - rewrite (last_map _ _ Index.bondStr _ 0) by discriminate.
    rewrite last_upFrom, Z2Nat.id by lia.
    replace (JS.parseInt a + (JS.parseInt b - JS.parseInt a)) with (JS.parseInt b) by lia.
    now apply bondStr_parseInt.
  - apply Forall_forall. intros x Hx. apply in_map_iff in Hx as (k & <- & Hk).
    apply In_upFrom in Hk.
    destruct (bondStr_spec k ltac:(lia)) as (Hd & Hv & Hl).
    rewrite Hv. repeat split; [apply Hl; lia | exact Hd].
Qed.

Lemma range_expansion_inclusive_padded_witness :
  let o := Index.ingest [] "0000998-0001001" in
  hd_error (Index.validNewBonds o) = Some "0000998"
  /\ last (Index.validNewBonds o) EmptyString = "0001001".
Proof.
  assert (JS.parseInt "0000998" <= JS.parseInt "0001001") as Hle
      by (vm_compute; discriminate).
  assert (JS.parseInt "0001001" - JS.parseInt "0000998" <= Index.MAX_RANGE_SIZE) as Hspan
      by (vm_compute; discriminate).
  destruct (proj1 range_expansion_inclusive_padded "0000998" "0001001"
                  eq_refl eq_refl Hle Hspan) as (_ & _ & H1 & H2 & _).
  split; [exact H1 | exact H2].
Defined.

(** C6, as the code has it (the order of a new block).  When the input is one
    range, the identifiers it adds stand in front of the collection in the
    reverse of the order of acceptance, that is in descending order of value:
    the first identifier of the collection is the highest-valued new
    identifier of the range, and the lowest-valued one is the last of the
    block. *)
Theorem range_block_highest_first (now : Z) (st : Index.State) (a b : string) :
  JS.singleTest a = true -> JS.singleTest b = true ->
  Index.inputValue st = String.append a (String "-" b) ->
  Index.validNewBonds (Index.ingest (Index.bonds st) (Index.inputValue st)) <> [] ->
  let block := rev (Index.validNewBonds (Index.ingest (Index.bonds st) (Index.inputValue st))) in
  Index.bonds (Index.handleProcessInput now st) = block ++ Index.bonds st
  /\ (forall x, In x block ->
        JS.parseInt x
      <= JS.parseInt (hd EmptyString (Index.bonds (Index.handleProcessInput now st))))
  /\ (forall x, In x block -> JS.parseInt (last block EmptyString) <= JS.parseInt x).
Proof.
  intros Ha Hb Hin Hacc block.
  pose proof (bonds_after_acceptance now st Hacc) as Hbonds.
  fold block in Hbonds. split; [exact Hbonds |].
  assert (StronglySorted valueLt
            (Index.validNewBonds (Index.ingest (Index.bonds st) (Index.inputValue st))))
    as Hsorted.
  { set (lo := Z.min (JS.parseInt a) (JS.parseInt b)).
    set (hi := Z.max (JS.parseInt a) (JS.parseInt b)).
    destruct (Z_le_gt_dec (hi - lo) Index.MAX_RANGE_SIZE) as [Hspan | Hspan].
    - rewrite Hin. destruct (ingest_range (Index.bonds st) a b Ha Hb Hspan) as (-> & _).
      apply news_ascending.
      pose proof (proj1 (singleTest_spec a) Ha) as [_ Hda].
      pose proof (proj1 (singleTest_spec b) Hb) as [_ Hdb].
      pose proof (parseInt_bound a Hda). pose proof (parseInt_bound b Hdb). lia.
    - exfalso. apply Hacc. rewrite Hin.
      rewrite ingest_token by now apply range_token.
      rewrite (processSegment_range _ _ a b) by now apply rangeMatch_hyphen.
      cbv zeta. fold lo hi.
      destruct (hi - lo >? Index.MAX_RANGE_SIZE) eqn:E; [reflexivity |].
      rewrite Z.gtb_ltb in E. apply Z.ltb_ge in E. lia. }
  split.
  - intros x Hx. rewrite Hbonds. unfold block. rewrite hd_rev_app by assumption.
    apply in_rev in Hx.
    destruct (sorted_last _ valueLt _ EmptyString x Hsorted Hx) as [<- | Hlt];
      [lia | unfold valueLt in Hlt; lia].
  - intros x Hx. unfold block. rewrite last_rev. apply in_rev in Hx.
    destruct (sorted_first _ valueLt _ EmptyString x Hsorted Hx) as [<- | Hlt];
      [lia | unfold valueLt in Hlt; lia].
Qed.

Lemma range_block_highest_first_witness :
  let st := {| Index.bonds := ["0000003"; "0000009"]; Index.inputValue := "0000001-0000003";
               Index.notifications := [] |} in
  Index.bonds (Index.handleProcessInput 7 st) = ["0000002"; "0000001"; "0000003"; "0000009"].
Proof.
  intros st.
  assert (Index.validNewBonds (Index.ingest (Index.bonds st) (Index.inputValue st)) <> [])
    as Hacc by (vm_compute; discriminate).
  exact (proj1 (range_block_highest_first 7 st "0000001" "0000003"
                  eq_refl eq_refl eq_refl Hacc)).
Defined.

(** C6, as the specification words it, fails: after the range
    "0000001-0000003" has been submitted to the empty collection, the first
    identifier of the new block is "0000003" and not the lowest-valued one,
    "0000001". *)
Lemma range_block_lowest_not_first :
  let st' := Index.handleProcessInput 0
               {| Index.bonds := []; Index.inputValue := "0000001-0000003";
                  Index.notifications := [] |} in
  Index.bonds st' = ["0000003"; "0000002"; "0000001"]
  /\ ~ (forall x, In x (Index.bonds st') ->
                  JS.parseInt (hd EmptyString (Index.bonds st')) <= JS.parseInt x).
Proof.
  split; [reflexivity |].
  intros H. specialize (H "0000001" (or_intror (or_intror (or_introl eq_refl)))).
  revert H. vm_compute. intros H. now apply H.
Qed.

Section Messages.
Import JS Index.

(** Every category with a count above zero has its text among the parts. *)
Lemma partsOf_reports (o : Outcome) :
  (duplicates o > 0 -> In (duplicatesPart o) (partsOf o))
  /\ (rangeSizeErrors o > 0 -> In (rangeSizePart o) (partsOf o))
  /\ (rangeFormatErrors o > 0 -> In (rangeFormatPart o) (partsOf o))
  /\ (singleFormatErrors o > 0 -> In (singleFormatPart o) (partsOf o)).
Proof.
  unfold partsOf. repeat split; intros H; apply Z.gt_lt, Z.gtb_lt in H; rewrite H;
    rewrite !in_app_iff; cbn [In]; tauto.
Qed.

End Messages.

(** C2, as the code has it (the ways a call ends).  A call ends in exactly
    one of five ways, by the input, the accepted set and the counters:
    - blank input: a warning, nothing else changes;
    - the accepted set is not empty: the identifiers are inserted, the input
      field is cleared and a success is shown;
    - the accepted set is empty, there is no formatting error and there is a
      duplicate: a warning is shown and the input field is cleared;
    - the accepted set is empty and there is a formatting error: a warning
      with the text of every category whose count is not zero is shown, and
      the input field is left as it is;
    - the accepted set is empty and there is neither a formatting error nor
      a duplicate (the input holds separators only): an error is shown and
      the input field is left as it is. *)
Theorem handler_ends_five_ways (now : Z) (st : Index.State) :
  let o := Index.ingest (Index.bonds st) (Index.inputValue st) in
  let st' := Index.handleProcessInput now st in
  (JS.truthy (JS.trim (Index.inputValue st)) = false
   /\ Index.bonds st' = Index.bonds st
   /\ Index.inputValue st' = Index.inputValue st
   /\ Shown now Index.warning "Please enter bond numbers to add." st st')
  \/ (JS.truthy (JS.trim (Index.inputValue st)) = true
      /\ Index.validNewBonds o <> []
      /\ Index.bonds st' = rev (Index.validNewBonds o) ++ Index.bonds st
      /\ Index.inputValue st' = EmptyString
      /\ Shown now Index.success (Index.successMessage o) st st')
  \/ (JS.truthy (JS.trim (Index.inputValue st)) = true
      /\ Index.validNewBonds o = []
      /\ Index.hasFormatErrors o = false
      /\ Index.duplicates o > 0
      /\ Index.bonds st' = Index.bonds st
      /\ Index.inputValue st' = EmptyString
      /\ Shown now Index.warning
               (String.append "Duplicate bond"
                  (String.append (Index.plural (Index.duplicates o)) " found.")) st st')
  \/ (JS.truthy (JS.trim (Index.inputValue st)) = true
      /\ Index.validNewBonds o = []
      /\ Index.hasFormatErrors o = true
      /\ Index.bonds st' = Index.bonds st
      /\ Index.inputValue st' = Index.inputValue st
      /\ Shown now Index.warning (Index.issuesMessage (Index.partsOf o)) st st'
      /\ (Index.duplicates o > 0 -> In (Index.duplicatesPart o) (Index.partsOf o))
      /\ (Index.rangeSizeErrors o > 0 -> In (Index.rangeSizePart o) (Index.partsOf o))
      /\ (Index.rangeFormatErrors o > 0 -> In (Index.rangeFormatPart o) (Index.partsOf o))
      /\ (Index.singleFormatErrors o > 0 -> In (Index.singleFormatPart o) (Index.partsOf o)))
  \/ (JS.truthy (JS.trim (Index.inputValue st)) = true
      /\ Index.validNewBonds o = []
      /\ Index.hasFormatErrors o = false
      /\ Index.duplicates o = 0
      /\ Index.bonds st' = Index.bonds st
      /\ Index.inputValue st' = Index.inputValue st
      /\ Shown now Index.error "No valid bonds found." st st').
Proof.
  intros o st'. subst st'. unfold Shown, Index.handleProcessInput. fold o.
  destruct (JS.truthy (JS.trim (Index.inputValue st))) eqn:Hblank; cbn [negb];
    [| left; repeat split].
  right. destruct (JS.size (Index.validNewBonds o) >? 0) eqn:Hsize.
  { left. apply size_positive in Hsize. repeat split. exact Hsize. }
  right. apply size_zero in Hsize.
  destruct (Index.hasFormatErrors o) eqn:Hformat.
  - right. left. rewrite andb_false_r, (partsOf_nonempty o Hformat).
    destruct (partsOf_reports o) as (P1 & P2 & P3 & P4).
    repeat split; assumption.
  - destruct (Index.duplicates o >? 0) eqn:Hdup; cbn [andb negb].
    + left. apply Z.gtb_lt in Hdup. repeat split; try assumption. lia.
    + right. right. rewrite (partsOf_empty o Hformat Hdup). cbn.
      destruct (Counted_ingest (Index.bonds st) (Index.inputValue st)) as (Hnn & _).
      fold o in Hnn. rewrite Z.gtb_ltb in Hdup. apply Z.ltb_ge in Hdup.
      repeat split; try assumption. lia.
Qed.

(** C2, as the specification words it, fails: the input "," has an empty
    accepted set and no formatting error, and yet the call shows an error,
    not a warning, and leaves the input field as it is. *)
Lemma separators_only_input_not_cleared :
  let st := {| Index.bonds := []; Index.inputValue := ","; Index.notifications := [] |} in
  let o := Index.ingest (Index.bonds st) (Index.inputValue st) in
  let st' := Index.handleProcessInput 0 st in
  Index.validNewBonds o = []
  /\ Index.hasFormatErrors o = false
  /\ Index.inputValue st' <> EmptyString
  /\ Index.notifications st'
     = [{| Index.id := 0; Index.type := Index.error;
           Index.message := "No valid bonds found." |}].
Proof. repeat split. discriminate. Qed.

(* ================================================================== *)
(** ** The earlier variant, [src/unnamed/part_000] *)
(* ================================================================== *)

(** The earlier callback counts an inverted range as a range error and
    expands nothing. *)
Lemma part000_inverted_range_rejected :
  fst (Part000.processSegment 0 [] "0000008-0000005" (Part000.noLocals, Index.initialState))
  = {| Part000.validNewBonds := []; Part000.duplicates := 0;
       Part000.invalidFormatCount := 0; Part000.rangeErrors := 1 |}.
Proof. reflexivity. Qed.

(** It has one count for every malformed token, with or without a hyphen. *)
Lemma part000_one_malformed_count :
  fst (Part000.processSegment 0 [] "12-3456789" (Part000.noLocals, Index.initialState))
  = {| Part000.validNewBonds := []; Part000.duplicates := 0;
       Part000.invalidFormatCount := 1; Part000.rangeErrors := 0 |}
  /\ fst (Part000.processSegment 0 [] "123" (Part000.noLocals, Index.initialState))
     = {| Part000.validNewBonds := []; Part000.duplicates := 0;
          Part000.invalidFormatCount := 1; Part000.rangeErrors := 0 |}.
Proof. split; reflexivity. Qed.

(** It splits on commas only, so that white space may stand around the
    hyphen of a range. *)
Lemma part000_range_with_spaces :
  Index.bonds
    (Part000.handleProcessInput 0
       {| Index.bonds := []; Index.inputValue := "0000005 - 0000008";
          Index.notifications := [] |})
  = ["0000008"; "0000007"; "0000006"; "0000005"].
Proof. reflexivity. Qed.


(* ================================================================== *)
(** ** The candidates of a token and what the scan does with them *)
(* ================================================================== *)

Section Candidates.
Import JS Index.

Variable existingSet : JSSet.

Lemma validNewBonds_consider (x : string) (o : Outcome) :
  validNewBonds (consider existingSet x o) = accept existingSet (validNewBonds o) x.
Proof. unfold consider, accept. now destruct (_ || _). Qed.

Lemma validNewBonds_rangeLoop (count : nat) (i : Z) (o : Outcome) :
  validNewBonds (rangeLoop existingSet count i o)
  = fold_left (accept existingSet) (map bondStr (upFrom count i)) (validNewBonds o).
Proof.
  revert i o. induction count as [| c IH]; intros i o; [reflexivity |].
  cbn [rangeLoop upFrom map fold_left]. now rewrite IH, validNewBonds_consider.
Qed.

(** The accepted set after a token is the accepted set after the test on
    each of its candidates. *)
Lemma validNewBonds_processSegment (segment : string) (o : Outcome) :
  validNewBonds (processSegment existingSet segment o)
  = fold_left (accept existingSet) (candidatesOf segment) (validNewBonds o).
Proof.
  unfold candidatesOf. destruct (rangeMatch segment) as [[a b] |] eqn:Hm.
  - rewrite (processSegment_range _ _ a b) by assumption. cbv zeta.
    destruct (_ >? MAX_RANGE_SIZE); [reflexivity | apply validNewBonds_rangeLoop].
  - unfold processSegment. rewrite Hm.
    destruct (includes segment "-"); [reflexivity |].
    destruct (singleTest segment); [apply validNewBonds_consider | reflexivity].
Qed.

Lemma validNewBonds_scan (segments : list string) (o : Outcome) :
  validNewBonds (fold_left (fun o segment => processSegment existingSet segment o) segments o)
  = fold_left (accept existingSet) (flat_map candidatesOf segments) (validNewBonds o).
Proof.
  revert o. induction segments as [| seg rest IH]; intros o; [reflexivity |].
  cbn [fold_left flat_map]. now rewrite IH, fold_left_app, validNewBonds_processSegment.
Qed.

Lemma In_accept (acc : JSSet) (x y : string) :
  In y (accept existingSet acc x) <-> In y acc \/ (y = x /\ has existingSet x = false).
Proof.
  unfold accept. destruct (has existingSet x) eqn:E1; cbn [orb].
  - intuition congruence.
  - destruct (has acc x) eqn:E2.
    + apply has_In in E2. intuition congruence.
    + unfold add. rewrite E2, in_app_iff. cbn [In]. intuition congruence.
Qed.

Lemma In_fold_accept (l : list string) (acc : JSSet) (y : string) :
  In y (fold_left (accept existingSet) l acc)
  <-> In y acc \/ (In y l /\ has existingSet y = false).
Proof.
  revert acc. induction l as [| x rest IH]; intros acc; cbn [fold_left In].
  - tauto.
  - rewrite IH, In_accept. split.
    + intros [[H | [-> H]] | [H1 H2]]; auto.
    + intros [H | [[<- | H1] H2]]; auto.
Qed.

Lemma fold_accept_known (l : list string) (acc : JSSet) :
  (forall x, In x l -> has existingSet x = true) ->
  fold_left (accept existingSet) l acc = acc.
Proof.
  revert acc. induction l as [| x rest IH]; intros acc H; [reflexivity |].
  cbn [fold_left]. unfold accept at 2. rewrite (H x (or_introl eq_refl)). cbn [orb].
  apply IH. intros y Hy. apply H. now right.
Qed.

(** *** Accounting *)

Lemma size_add_new (set : JSSet) (x : string) :
  has set x = false -> size (add set x) = size set + 1.
Proof.
  intros H. unfold add, size. rewrite H, length_app. cbn [List.length]. lia.
Qed.

Lemma consider_accounts (x : string) (o : Outcome) :
  let o' := consider existingSet x o in
  size (validNewBonds o') + duplicates o' = size (validNewBonds o) + duplicates o + 1
  /\ formatErrors o' = formatErrors o.
Proof.
  unfold consider, formatErrors.
  destruct (has existingSet x) eqn:E1; cbn; [split; [lia | reflexivity] |].
  destruct (has (validNewBonds o) x) eqn:E2; cbn; [split; [lia | reflexivity] |].
  rewrite size_add_new by assumption. split; [lia | reflexivity].
Qed.

Lemma rangeLoop_accounts (count : nat) (i : Z) (o : Outcome) :
  let o' := rangeLoop existingSet count i o in
  size (validNewBonds o') + duplicates o'
  = size (validNewBonds o) + duplicates o + Z.of_nat count
  /\ formatErrors o' = formatErrors o.
Proof.
  revert i o. induction count as [| c IH]; intros i o; cbn [rangeLoop].
  - cbv zeta. split; [lia | reflexivity].
  - destruct (IH (i + 1) (consider existingSet (bondStr i) o)) as [E1 E2].
    destruct (consider_accounts (bondStr i) o) as [F1 F2].
    cbv zeta in *. rewrite E1, E2, F1, F2. split; [lia | reflexivity].
Qed.

(** A token adds the number of its candidates to the accepted identifiers and
    the duplicates together, or one to the formatting errors. *)
Lemma processSegment_accounts (segment : string) (o : Outcome) :
  let o' := processSegment existingSet segment o in
  size (validNewBonds o') + duplicates o'
  = size (validNewBonds o) + duplicates o + Z.of_nat (List.length (candidatesOf segment))
  /\ formatErrors o' = formatErrors o + (if rejected segment then 1 else 0).
Proof.
  unfold rejected, candidatesOf. destruct (rangeMatch segment) as [[a b] |] eqn:Hm.
  - rewrite (processSegment_range _ _ a b) by assumption. cbv zeta.
    set (lo := Z.min (parseInt a) (parseInt b)). set (hi := Z.max (parseInt a) (parseInt b)).
    destruct (hi - lo >? MAX_RANGE_SIZE) eqn:E.
    + unfold formatErrors. cbn. split; lia.
    + destruct (rangeLoop_accounts (Z.to_nat (hi - lo + 1)) lo o) as [E1 E2].
      cbv zeta in *. rewrite E1, E2, length_map, length_upFrom.
      assert (0 <= hi - lo) by (unfold lo, hi; lia).
      replace (Z.to_nat (hi - lo + 1)) with (S (Z.to_nat (hi - lo))) by lia.
      cbn [upFrom map]. split; lia.
  - unfold processSegment. rewrite Hm.
    destruct (includes segment "-"); [unfold formatErrors; cbn; split; lia |].
    destruct (singleTest segment).
    + destruct (consider_accounts segment o) as [E1 E2]. cbv zeta in *.
      rewrite E1, E2. cbn. split; lia.
    + unfold formatErrors. cbn. split; lia.
Qed.

Lemma scan_accounts (segments : list string) (o : Outcome) :
  let o' := fold_left (fun o segment => processSegment existingSet segment o) segments o in
  size (validNewBonds o') + duplicates o'
  = size (validNewBonds o) + duplicates o
    + Z.of_nat (List.length (flat_map candidatesOf segments))
  /\ formatErrors o' = formatErrors o + Z.of_nat (List.length (filter rejected segments)).
Proof.
  revert o. induction segments as [| seg rest IH]; intros o; cbn [fold_left flat_map filter].
  - cbv zeta. cbn. split; lia.
  - destruct (IH (processSegment existingSet seg o)) as [E1 E2].
    destruct (processSegment_accounts seg o) as [F1 F2].
    cbv zeta in *. rewrite E1, E2, F1, F2, length_app.
    destruct (rejected seg); cbn [List.length]; split; lia.
Qed.

End Candidates.

Lemma In_validNewBonds_ingest (bondList : list string) (input x : string) :
  In x (Index.validNewBonds (Index.ingest bondList input))
  <-> ~ In x bondList
      /\ exists seg, In seg (Index.segmentsOf input) /\ In x (candidatesOf seg).
Proof.
  unfold Index.ingest. rewrite validNewBonds_scan, In_fold_accept.
  rewrite has_newSet, has_false_In, in_flat_map. cbn [Index.validNewBonds In].
  split.
  - intros [[] | [Hx Hnew]]. now split.
  - intros [Hnew Hx]. right. now split.
Qed.

Section Tally.
Import JS Index.

Variable bondList : list string.

Lemma tally_consider (x : string) (o : Outcome) :
  tally (consider (newSet bondList) x o) = dedupStep bondList (tally o) x.
Proof.
  unfold tally, dedupStep, consider. rewrite has_newSet.
  change (existsb (String.eqb x) bondList) with (has bondList x).
  change (existsb (String.eqb x) (validNewBonds o)) with (has (validNewBonds o) x).
  destruct (has bondList x) eqn:E1; cbn [orb]; [reflexivity |].
  unfold add. now destruct (has (validNewBonds o) x) eqn:E2.
Qed.

Lemma tally_rangeLoop (count : nat) (i : Z) (o : Outcome) :
  tally (rangeLoop (newSet bondList) count i o)
  = fold_left (dedupStep bondList) (map bondStr (upFrom count i)) (tally o).
Proof.
  revert i o. induction count as [| c IH]; intros i o; [reflexivity |].
  cbn [rangeLoop upFrom map fold_left]. now rewrite IH, tally_consider.
Qed.

Lemma tally_processSegment (segment : string) (o : Outcome) :
  tally (processSegment (newSet bondList) segment o)
  = fold_left (dedupStep bondList) (candidatesOf segment) (tally o).
Proof.
  unfold candidatesOf. destruct (rangeMatch segment) as [[a b] |] eqn:Hm.
  - rewrite (processSegment_range _ _ a b) by assumption. cbv zeta.
    destruct (_ >? MAX_RANGE_SIZE); [reflexivity | apply tally_rangeLoop].
  - unfold processSegment. rewrite Hm.
    destruct (includes segment "-"); [reflexivity |].
    destruct (singleTest segment); [apply tally_consider | reflexivity].
Qed.

(** The scan treats the candidates of the tokens, one after the other in the
    order of the input, as the specification words it. *)
Lemma tally_scan (segments : list string) (o : Outcome) :
  tally (fold_left (fun o segment => processSegment (newSet bondList) segment o) segments o)
  = fold_left (dedupStep bondList) (flat_map candidatesOf segments) (tally o).
Proof.
  revert o. induction segments as [| seg rest IH]; intros o; [reflexivity |].
  cbn [fold_left flat_map]. now rewrite IH, fold_left_app, tally_processSegment.
Qed.

End Tally.

(** C1 (uniqueness invariant).  Whatever the user submits, and however many
    times, starting from the empty collection, the collection never holds an
    identifier twice.  The accepted set of a call has no repetition and
    nothing that the collection holds.  The scan of a call treats every
    candidate of the input, in order, as the specification says: a candidate
    that is in the collection, or that the same call has accepted already, is
    counted as a duplicate and discarded, and any other candidate is
    accepted; so the accepted set holds exactly the candidates that the
    collection does not hold, and the accepted identifiers and the duplicates
    together are as many as the candidates.  The same holds of the test on
    one candidate. *)
Theorem ingestion_keeps_identifiers_unique :
  (forall inputs : list (Z * string),
      NoDup (Index.bonds (Index.ingestAll inputs Index.initialState)))
  /\ (forall (bondList : list string) (input : string),
        NoDup (Index.validNewBonds (Index.ingest bondList input))
        /\ forall x, In x (Index.validNewBonds (Index.ingest bondList input)) ->
                     ~ In x bondList)
  /\ (forall (bondList : list string) (o : Index.Outcome) (x : string),
        In x bondList \/ In x (Index.validNewBonds o) ->
        Index.consider (JS.newSet bondList) x o =
          {| Index.validNewBonds := Index.validNewBonds o;
             Index.duplicates := Index.duplicates o + 1;
             Index.rangeFormatErrors := Index.rangeFormatErrors o;
             Index.rangeSizeErrors := Index.rangeSizeErrors o;
             Index.singleFormatErrors := Index.singleFormatErrors o |})
  /\ (forall (bondList : list string) (input : string),
        (Index.validNewBonds (Index.ingest bondList input),
         Index.duplicates (Index.ingest bondList input))
        = fold_left (dedupStep bondList)
                    (flat_map candidatesOf (Index.segmentsOf input)) ([], 0))
  /\ (forall (bondList : list string) (input x : string),
        In x (Index.validNewBonds (Index.ingest bondList input))
        <-> ~ In x bondList
            /\ exists seg, In seg (Index.segmentsOf input) /\ In x (candidatesOf seg))
  /\ (forall (bondList : list string) (input : string),
        JS.size (Index.validNewBonds (Index.ingest bondList input))
        + Index.duplicates (Index.ingest bondList input)
        = Z.of_nat (List.length (flat_map candidatesOf (Index.segmentsOf input))))
  /\ (forall (bondList : list string) (input seg x : string),
        In seg (Index.segmentsOf input) -> In x (candidatesOf seg) -> In x bondList ->
        ~ In x (Index.validNewBonds (Index.ingest bondList input))
        /\ Index.duplicates (Index.ingest bondList input) >= 1).
Proof.
  split; [| split; [| split; [| split; [| split; [| split]]]]].
  - intros inputs. apply NoDup_ingestAll. constructor.
  - intros bondList input. destruct (Fresh_ingest bondList input) as [Hnd Hex].
    split; [assumption |]. intros x Hx. specialize (Hex x Hx).
    rewrite has_newSet in Hex. now apply has_false_In.
  - intros bondList o x H. apply consider_known. apply orb_true_iff.
    rewrite has_newSet, !has_In. exact H.
  - intros bondList input. unfold Index.ingest.
    exact (tally_scan bondList (Index.segmentsOf input) Index.noOutcome).
  - intros bondList input x. apply In_validNewBonds_ingest.
  - intros bondList input. unfold Index.ingest.
    destruct (scan_accounts (JS.newSet bondList) (Index.segmentsOf input) Index.noOutcome)
      as [E _].
    cbv zeta in E. rewrite E. cbn. lia.
  - intros bondList input seg x Hseg Hx Hin.
    assert (~ In x (Index.validNewBonds (Index.ingest bondList input))) as Hout.
    { intros Hacc. apply In_validNewBonds_ingest in Hacc as [Hnew _]. contradiction. }
    split; [exact Hout |].
    assert (In x (flat_map candidatesOf (Index.segmentsOf input))) as Hcand
        by (apply in_flat_map; now exists seg).
    unfold Index.ingest in *.
    destruct (scan_accounts (JS.newSet bondList) (Index.segmentsOf input) Index.noOutcome)
      as [E _].
    cbv zeta in E. change (JS.size (Index.validNewBonds Index.noOutcome)) with 0 in E.
    change (Index.duplicates Index.noOutcome) with 0 in E.
    set (o := fold_left (fun o segment => Index.processSegment (JS.newSet bondList) segment o)
                        (Index.segmentsOf input) Index.noOutcome) in *.
    set (cands := flat_map candidatesOf (Index.segmentsOf input)) in *.
    (* the accepted identifiers are among the candidates other than [x] *)
    assert (JS.size (Index.validNewBonds o) < Z.of_nat (List.length cands)); [| lia].
    assert (NoDup (Index.validNewBonds o)) as Hnd
        by (exact (proj1 (Fresh_scan (JS.newSet bondList) (Index.segmentsOf input)
                            Index.noOutcome (Fresh_noOutcome _)))).
    assert (incl (x :: Index.validNewBonds o) cands) as Hincl.
    { intros y [<- | Hy]; [exact Hcand |].
      unfold o in Hy. rewrite validNewBonds_scan in Hy.
      apply In_fold_accept in Hy as [[] | [Hy _]]. exact Hy. }
    pose proof (NoDup_incl_length (NoDup_cons x Hout Hnd) Hincl) as Hlen.
    unfold JS.size. cbn [List.length] in Hlen. lia.
Qed.

Lemma ingestion_keeps_identifiers_unique_witness :
  ~ In "0000001" (Index.validNewBonds (Index.ingest ["0000001"] "0000002, 0000001"))
  /\ Index.duplicates (Index.ingest ["0000001"] "0000002, 0000001") >= 1.
Proof.
  refine (proj2 (proj2 (proj2 (proj2 (proj2 (proj2 ingestion_keeps_identifiers_unique)))))
            ["0000001"] "0000002, 0000001" "0000001" "0000001" _ _ _).
  - right. left. reflexivity.
  - left. reflexivity.
  - left. reflexivity.
Defined.

(* ================================================================== *)
(** ** More properties of the scan of [src/index.tsx] *)
(* ================================================================== *)

Section Pieces.
Import JS Index.

Lemma everyChar_of_list (p : ascii -> bool) (l : list ascii) :
  everyChar p (string_of_list_ascii l) = forallb p l.
Proof. induction l as [| c l IH]; simpl; [reflexivity | now rewrite IH]. Qed.

Lemma forallb_rev_true (p : ascii -> bool) (l : list ascii) :
  forallb p l = true -> forallb p (rev l) = true.
Proof.
  rewrite !forallb_forall. intros H c Hc. apply H. now apply in_rev.
Qed.

(** No piece of a split holds a separator. *)
Lemma splitRuns_no_separator (sep : ascii -> bool) (s : string) (inRun : bool)
      (cur : list ascii) :
  forallb (fun c => negb (sep c)) cur = true ->
  Forall (fun piece => everyChar (fun c => negb (sep c)) piece = true)
         (splitRuns sep inRun cur s).
Proof.
  revert inRun cur. induction s as [| c r IH]; intros inRun cur Hcur; cbn [splitRuns].
  - constructor; [| constructor]. rewrite everyChar_of_list. now apply forallb_rev_true.
  - destruct (sep c) eqn:Hc.
    + destruct inRun; [now apply IH |].
      constructor; [| now apply IH].
      rewrite everyChar_of_list. now apply forallb_rev_true.
    + apply IH. cbn [forallb]. now rewrite Hc, Hcur.
Qed.

Lemma skipSpaces_id (s : string) :
  everyChar (fun c => negb (isSpace c)) s = true -> skipSpaces s = s.
Proof.
  destruct s as [| c r]; intros H; simpl in *; [reflexivity |].
  apply andb_true_iff in H as [Hc _]. apply negb_true_iff in Hc. now rewrite Hc.
Qed.

(** On a string without white space the range pattern matches two
    identifiers with a hyphen between them and nothing else. *)
Lemma rangeMatch_no_space (s a b : string) :
  everyChar (fun c => negb (isSpace c)) s = true ->
  rangeMatch s = Some (a, b) -> s = String.append a (String "-" b).
Proof.
  intros Hs. unfold rangeMatch.
  destruct (digitsN 7 s) as [[a' r1] |] eqn:E1; [| discriminate].
  apply digitsN_sound in E1 as (-> & _ & _).
  rewrite everyChar_app in Hs. apply andb_true_iff in Hs as [_ Hr1].
  rewrite (skipSpaces_id r1 Hr1).
  destruct r1 as [| c r2]; [discriminate |].
  destruct (Ascii.eqb c "-") eqn:Ec.
  - apply Ascii.eqb_eq in Ec. subst c.
    cbn [everyChar] in Hr1. apply andb_true_iff in Hr1 as [_ Hr2].
    rewrite (skipSpaces_id r2 Hr2).
    destruct (digitsN 7 r2) as [[b' r3] |] eqn:E2; [| discriminate].
    destruct r3; [| discriminate]. intros H. injection H as <- <-.
    apply digitsN_sound in E2 as (-> & _ & _). now rewrite append_empty_r.
  - intros H. exfalso. apply Ascii.eqb_neq in Ec.
    destruct c as [[] [] [] [] [] [] [] []]; try discriminate. now apply Ec.
Qed.

Lemma segment_is_piece (input seg : string) :
  In seg (segmentsOf input) ->
  truthy seg = true /\ everyChar (fun c => negb (isSeparator c)) seg = true.
Proof.
  unfold segmentsOf, splitClass. intros H.
  apply filter_In in H as [H Ht]. apply in_map_iff in H as (piece & Htrim & Hp).
  pose proof (splitRuns_no_separator isSeparator input false [] eq_refl) as Hall.
  rewrite Forall_forall in Hall. specialize (Hall piece Hp).
  rewrite trim_id in Htrim by now apply no_separator_no_space.
  subst seg. now split.
Qed.

(** The candidates of a token are identifiers. *)
Lemma candidates_are_identifiers (segment x : string) :
  In x (candidatesOf segment) -> singleTest x = true.
Proof.
  unfold candidatesOf. destruct (rangeMatch segment) as [[a b] |] eqn:Hm.
  - destruct (rangeMatch_sound _ _ _ Hm) as [Ha Hb].
    apply singleTest_spec in Ha as [Hla Hda], Hb as [Hlb Hdb].
    pose proof (parseInt_bound a Hda) as Hpa. pose proof (parseInt_bound b Hdb) as Hpb.
    rewrite Hla in Hpa. rewrite Hlb in Hpb. cbv zeta.
    destruct (_ >? MAX_RANGE_SIZE); [intros [] |].
    intros Hx. apply in_map_iff in Hx as (k & <- & Hk). apply In_upFrom in Hk.
    destruct (bondStr_spec k ltac:(lia)) as (Hd & _ & Hl).
    apply singleTest_spec. split; [apply Hl; lia | exact Hd].
  - destruct (includes segment "-"); [intros [] |].
    destruct (singleTest segment) eqn:Hs; [| intros []].
    intros [<- | []]. exact Hs.
Qed.

End Pieces.

(** X1 (identifiers and numbers).  [bondStr] and [parseInt] are inverse to
    each other between the integers from 0 to 9999999 and the strings that
    the single pattern accepts. *)
Theorem identifier_round_trip :
  (forall i : Z, 0 <= i < 10 ^ 7 ->
                 JS.singleTest (Index.bondStr i) = true
                 /\ JS.parseInt (Index.bondStr i) = i)
  /\ (forall s : string, JS.singleTest s = true ->
                         0 <= JS.parseInt s < 10 ^ 7
                         /\ Index.bondStr (JS.parseInt s) = s).
Proof.
  split.
  - intros i [Hlo Hhi]. destruct (bondStr_spec i Hlo) as (Hd & Hv & Hl).
    split; [| exact Hv]. apply singleTest_spec. split; [now apply Hl | exact Hd].
  - intros s Hs. split; [| now apply bondStr_parseInt].
    apply singleTest_spec in Hs as [Hl Hd].
    pose proof (parseInt_bound s Hd) as Hb. now rewrite Hl in Hb.
Qed.

Lemma identifier_round_trip_witness :
  Index.bondStr (JS.parseInt "0012300") = "0012300".
Proof.
  exact (proj2 (proj2 identifier_round_trip "0012300" eq_refl)).
Defined.

(** X2 (tokens).  A token of the input is not empty and holds no comma and no
    white space; so a token that matches the range pattern is two identifiers
    with nothing but the hyphen between them. *)
Theorem tokens_hold_no_separator (input seg : string) :
  In seg (Index.segmentsOf input) ->
  seg <> EmptyString
  /\ everyChar (fun c => negb (Index.isSeparator c)) seg = true
  /\ JS.trim seg = seg
  /\ forall a b, JS.rangeMatch seg = Some (a, b) -> seg = String.append a (String "-" b).
Proof.
  intros H. destruct (segment_is_piece input seg H) as [Ht Hs].
  pose proof (no_separator_no_space seg Hs) as Hsp.
  repeat split.
  - intros ->. discriminate.
  - exact Hs.
  - now apply trim_id.
  - intros a b. now apply rangeMatch_no_space.
Qed.

Lemma tokens_hold_no_separator_witness :
  JS.trim "0000003" = "0000003".
Proof.
  refine (proj1 (proj2 (proj2 (tokens_hold_no_separator "0000001 - 0000003" "0000003" _)))).
  right. right. left. reflexivity.
Defined.

(** X3 (what is accepted).  The accepted set of a call holds exactly the
    candidates of the tokens of the input that the collection does not
    hold. *)
Theorem accepted_are_the_new_candidates (bondList : list string) (input x : string) :
  In x (Index.validNewBonds (Index.ingest bondList input))
  <-> ~ In x bondList
      /\ exists seg, In seg (Index.segmentsOf input) /\ In x (candidatesOf seg).
Proof.
  unfold Index.ingest. rewrite validNewBonds_scan, In_fold_accept, in_flat_map.
  rewrite has_newSet, has_false_In. cbn [Index.validNewBonds In].
  split.
  - intros [[] | [Hx Hnew]]. now split.
  - intros [Hnew Hx]. right. now split.
Qed.

(** X4 (accounting).  Nothing is lost in the scan: the accepted identifiers
    and the duplicates together are as many as the candidates of all tokens,
    and the three counts of formatting errors together are as many as the
    tokens without candidates. *)
Theorem scan_accounts_for_every_token (bondList : list string) (input : string) :
  let o := Index.ingest bondList input in
  JS.size (Index.validNewBonds o) + Index.duplicates o
  = Z.of_nat (List.length (flat_map candidatesOf (Index.segmentsOf input)))
  /\ Index.rangeFormatErrors o + Index.rangeSizeErrors o + Index.singleFormatErrors o
     = Z.of_nat (List.length (filter rejected (Index.segmentsOf input))).
Proof.
  intros o. subst o. unfold Index.ingest.
  destruct (scan_accounts (JS.newSet bondList) (Index.segmentsOf input) Index.noOutcome)
    as [E1 E2].
  cbv zeta in *. rewrite E1. unfold formatErrors in E2. rewrite E2. cbn. split; lia.
Qed.

(** X5 (submitting again).  When the text of a call is submitted a second
    time, right after the first, the second call leaves the collection as
    the first one left it. *)
Theorem resubmission_adds_nothing (now1 now2 : Z) (st : Index.State) :
  let st1 := Index.handleProcessInput now1 st in
  Index.bonds (Index.handleProcessInput now2 (Index.setInputValue (Index.inputValue st) st1))
  = Index.bonds st1.
Proof.
  intros st1. rewrite bonds_handleProcessInput.
  cbn [Index.setInputValue Index.bonds Index.inputValue].
  assert (Index.validNewBonds (Index.ingest (Index.bonds st1) (Index.inputValue st)) = [])
    as Hnone.
  { unfold Index.ingest. rewrite validNewBonds_scan. apply fold_accept_known.
    intros x Hx. rewrite has_newSet. apply has_In.
    apply in_flat_map in Hx as (seg & Hseg & Hx).
    subst st1. rewrite bonds_handleProcessInput.
    destruct (JS.has (Index.bonds st) x) eqn:Hold.
    - apply has_In in Hold. destruct (_ && _); [apply in_or_app; now right | exact Hold].
    - apply has_false_In in Hold.
      assert (In x (Index.validNewBonds (Index.ingest (Index.bonds st) (Index.inputValue st))))
        as Hacc by (apply In_validNewBonds_ingest; split; [assumption | now exists seg]).
      destruct (JS.truthy (JS.trim (Index.inputValue st))) eqn:Hblank.
      + assert ((JS.size (Index.validNewBonds
                            (Index.ingest (Index.bonds st) (Index.inputValue st))) >? 0)
                = true) as ->.
        { apply size_positive. intros E. rewrite E in Hacc. destruct Hacc. }
        cbn [andb]. apply in_or_app. left. now apply in_rev in Hacc.
      + rewrite blank_no_segments in Hseg by assumption. destruct Hseg. }
  rewrite Hnone. cbn. now rewrite andb_false_r.
Qed.

(** X6 (a range of one).  A range whose two bounds are the same identifier is
    treated as that identifier alone. *)
Theorem range_of_one_is_single (existingSet : JS.JSSet) (a : string) (o : Index.Outcome) :
  JS.singleTest a = true ->
  Index.processSegment existingSet (String.append a (String "-" a)) o
  = Index.processSegment existingSet a o.
Proof.
  intros Ha. rewrite (processSegment_range _ _ a a) by now apply rangeMatch_hyphen.
  rewrite processSegment_single by assumption. cbv zeta.
  rewrite Z.min_id, Z.max_id, Z.sub_diag. cbn [Z.gtb Z.compare Index.MAX_RANGE_SIZE].
  change (Z.to_nat (0 + 1)) with 1%nat. cbn [Index.rangeLoop].
  now rewrite bondStr_parseInt.
Qed.

Lemma range_of_one_is_single_witness :
  Index.processSegment ["0000007"] "0000007-0000007" Index.noOutcome
  = Index.processSegment ["0000007"] "0000007" Index.noOutcome.
Proof.
  exact (range_of_one_is_single ["0000007"] "0000007" Index.noOutcome eq_refl).
Defined.

(* ================================================================== *)
(** ** The other handlers of [src/index.tsx] *)
(* ================================================================== *)

Section Handlers.
Import JS Index App.

Lemma Forall_handleProcessInput (now : Z) (st : State) :
  Forall (fun x => singleTest x = true) (bonds st) ->
  Forall (fun x => singleTest x = true) (bonds (handleProcessInput now st)).
Proof.
  intros Hall. rewrite bonds_handleProcessInput. destruct (_ && _); [| assumption].
  apply Forall_app. split; [| assumption].
  apply Forall_forall. intros x Hx. apply in_rev in Hx.
  apply In_validNewBonds_ingest in Hx as (_ & seg & _ & Hx).
  now apply candidates_are_identifiers in Hx.
Qed.

Lemma WellFormed_handleProcessInput (now : Z) (st : State) :
  WellFormed (bonds st) -> WellFormed (bonds (handleProcessInput now st)).
Proof.
  intros [Hnd Hall]. split;
    [now apply NoDup_handleProcessInput | now apply Forall_handleProcessInput].
Qed.

Lemma WellFormed_filter (p : string -> bool) (l : list string) :
  WellFormed l -> WellFormed (filter p l).
Proof.
  intros [Hnd Hall]. split; [now apply NoDup_filter |].
  rewrite Forall_forall in *. intros x Hx. apply filter_In in Hx as [Hx _]. auto.
Qed.

Lemma WellFormed_step (a : Action) (app : App) :
  WellFormed (bonds (state app)) -> WellFormed (bonds (state (step a app))).
Proof.
  intros H. destruct a; cbn [step]; try exact H.
  - now apply WellFormed_handleProcessInput.
  - now apply WellFormed_filter.
  - unfold handleClearAllClick. now destruct (_ =? 0).
  - unfold modalConfirm. destruct (negb _); [exact H |]. split; constructor.
  - unfold modalClose. now destruct (negb _).
  - unfold handleCopy. now destruct writeOk.
  - unfold handleCopyAll. destruct (_ =? 0); [exact H |]. now destruct writeOk.
Qed.

Lemma filter_absent (l : list string) (x : string) :
  ~ In x l -> filter (fun b => negb (String.eqb b x)) l = l.
Proof.
  intros H. apply filter_all. intros y Hy. apply negb_true_iff, String.eqb_neq.
  intros ->. contradiction.
Qed.

Lemma filter_present_length (l : list string) (x : string) :
  NoDup l -> In x l ->
  S (List.length (filter (fun b => negb (String.eqb b x)) l)) = List.length l.
Proof.
  induction 1 as [| y l' Hy Hnd IH]; intros Hx; [destruct Hx |].
  cbn [filter List.length]. destruct (String.eqb y x) eqn:E; cbn [negb].
  - apply String.eqb_eq in E. subst y. now rewrite filter_absent.
  - apply String.eqb_neq in E. destruct Hx as [-> | Hx]; [congruence |].
    cbn [List.length]. now rewrite IH.
Qed.

(** *** [includes] and [join] *)

Lemma prefix_spec (p s : string) :
  String.prefix p s = true <-> exists post, s = String.append p post.
Proof.
  revert s. induction p as [| c p IH]; intros s.
  - destruct s; simpl; split; eauto.
  - destruct s as [| d s]; simpl.
    + split; [discriminate | intros [post H]; discriminate].
    + destruct (ascii_dec c d) as [<- | Hne].
      * rewrite IH. split; intros [post H]; exists post; congruence.
      * split; [discriminate | intros [post H]; congruence].
Qed.

(** [s.includes(sub)] says that [sub] is a substring of [s]. *)
Lemma includes_spec (s sub : string) :
  includes s sub = true
  <-> exists pre post, s = String.append pre (String.append sub post).
Proof.
  split.
  - induction s as [| c r IH]; cbn [includes]; intros H;
      apply orb_true_iff in H as [H | H]; try discriminate.
    + apply prefix_spec in H as [post ->]. now exists EmptyString, post.
    + apply prefix_spec in H as [post ->]. now exists EmptyString, post.
    + destruct (IH H) as (pre & post & ->). now exists (String c pre), post.
  - intros (pre & post & ->). induction pre as [| c pre IH].
    + cbn [String.append].
      assert (String.prefix sub (String.append sub post) = true) as Hp
          by (apply prefix_spec; eauto).
      destruct (String.append sub post); cbn [includes]; now rewrite Hp.
    + cbn [String.append includes]. rewrite IH. apply orb_true_r.
Qed.

Lemma includes_empty (s : string) : includes s EmptyString = true.
Proof. apply includes_spec. now exists EmptyString, s. Qed.

(** The text of a list of tokens joined by [", "] splits into the list. *)
Lemma splitRuns_join (l : list string) (inRun : bool) :
  Forall (fun x => truthy x = true
                   /\ everyChar (fun c => negb (isSeparator c)) x = true) l ->
  l <> [] ->
  splitRuns isSeparator inRun [] (join ", " l) = l.
Proof.
  intros Hall. revert inRun. induction Hall as [| x rest [Ht Hx] Hrest IH]; intros inRun Hne;
    [congruence |].
  destruct rest as [| y rest'].
  - cbn [join]. now rewrite splitRuns_piece.
  - change (join ", " (x :: y :: rest'))
      with (String.append x (String "," (String " " (join ", " (y :: rest'))))).
    rewrite splitRuns_cut; try assumption; try reflexivity.
    + cbn [rev string_of_list_ascii String.append]. f_equal.
      change (splitRuns isSeparator true [] (String " " (join ", " (y :: rest'))))
        with (splitRuns isSeparator true [] (join ", " (y :: rest'))).
      apply IH. discriminate.
    + intros ->. discriminate.
Qed.

Lemma segmentsOf_join (l : list string) :
  Forall (fun x => truthy x = true
                   /\ everyChar (fun c => negb (isSeparator c)) x = true) l ->
  segmentsOf (join ", " l) = l.
Proof.
  intros Hall. destruct l as [| x rest]; [reflexivity |].
  unfold segmentsOf, splitClass. rewrite splitRuns_join by (assumption || discriminate).
  induction Hall as [| y l' [Ht Hy] _ IH]; [reflexivity |].
  cbn [map filter]. rewrite trim_id by now apply no_separator_no_space.
  now rewrite Ht, IH.
Qed.

End Handlers.

(** X7 (the collection stays well formed).  Whatever the user does to a fresh
    component (typing, saving, deleting, clearing, searching, copying,
    dismissing notifications), the collection holds identifiers only, that is
    strings of seven digits, and each of them once. *)
Theorem session_keeps_collection_well_formed (clip : string) (actions : list App.Action) :
  WellFormed (Index.bonds (App.state (App.run actions (App.initialApp clip)))).
Proof.
  unfold App.run.
  assert (WellFormed (Index.bonds (App.state (App.initialApp clip)))) as H0
      by (split; constructor).
  revert H0. generalize (App.initialApp clip) as app.
  induction actions as [| a rest IH]; intros app H; cbn [fold_left]; [exact H |].
  apply IH. now apply WellFormed_step.
Qed.

(** X8 (deleting).  [handleDelete] removes the identifier and nothing else
    and leaves the input field alone; when every identifier is there once,
    the identifier is cut out of the list and the rest keeps its order.  An
    identifier that is not in the collection leaves the collection as it is,
    and the handler reports the deletion all the same. *)
Theorem delete_removes_one_identifier (now : Z) (x : string) (st : Index.State) :
  let st' := App.handleDelete now x st in
  (forall y, In y (Index.bonds st') <-> In y (Index.bonds st) /\ y <> x)
  /\ (NoDup (Index.bonds st) -> In x (Index.bonds st) ->
      exists before rest,
        Index.bonds st = before ++ x :: rest /\ Index.bonds st' = before ++ rest)
  /\ (~ In x (Index.bonds st) -> Index.bonds st' = Index.bonds st)
  /\ Index.inputValue st' = Index.inputValue st
  /\ Shown now Index.success (String.append "Bond " (String.append x " deleted.")) st st'.
Proof.
  intros st'. subst st'. unfold App.handleDelete, Shown. cbn.
  split; [| split; [| split; [| split; reflexivity]]].
  - intros y. rewrite filter_In, negb_true_iff, String.eqb_neq. tauto.
  - intros Hnd Hx. apply in_split in Hx as (before & rest & E). exists before, rest.
    split; [exact E |]. rewrite E in Hnd |- *.
    apply NoDup_remove_2 in Hnd. rewrite in_app_iff in Hnd.
    rewrite filter_app. cbn [filter]. rewrite String.eqb_refl. cbn [negb].
    rewrite !filter_absent by tauto. reflexivity.
  - apply filter_absent.
Qed.

Lemma delete_removes_one_identifier_witness :
  Index.bonds
    (App.handleDelete 5 "0000002"
       {| Index.bonds := ["0000003"; "0000001"]; Index.inputValue := "x";
          Index.notifications := [] |})
  = ["0000003"; "0000001"].
Proof.
  refine (proj1 (proj2 (proj2 (delete_removes_one_identifier 5 "0000002"
            {| Index.bonds := ["0000003"; "0000001"]; Index.inputValue := "x";
               Index.notifications := [] |}))) _).
  intros [H | [H | []]]; discriminate H.
Defined.

(** X9 (adding, then deleting).  Saving an identifier that the collection
    does not hold and deleting it afterwards gives the collection back as it
    was. *)
Theorem save_then_delete_restores (now1 now2 : Z) (x : string) (st : Index.State) :
  JS.singleTest x = true -> ~ In x (Index.bonds st) ->
  Index.bonds
    (App.handleDelete now2 x (Index.handleProcessInput now1 (Index.setInputValue x st)))
  = Index.bonds st.
Proof.
  intros Hx Hnew.
  pose proof (proj1 (singleTest_spec x) Hx) as [Hl Hd].
  assert (JS.truthy x = true) as Ht by (destruct x; [discriminate | reflexivity]).
  assert (Index.ingest (Index.bonds st) x
          = Index.consider (JS.newSet (Index.bonds st)) x Index.noOutcome) as Hin.
  { rewrite ingest_token by (apply segmentsOf_token; [now apply digits_no_separator | exact Ht]).
    now apply processSegment_single. }
  rewrite consider_new in Hin;
    [| rewrite has_newSet; now apply has_false_In | reflexivity].
  assert (Index.bonds (Index.handleProcessInput now1 (Index.setInputValue x st))
          = x :: Index.bonds st) as Hb.
  { rewrite bonds_handleProcessInput.
    cbn [Index.setInputValue Index.bonds Index.inputValue]. rewrite Hin.
    rewrite trim_id by now apply no_separator_no_space, digits_no_separator.
    now rewrite Ht. }
  unfold App.handleDelete. cbn [Index.showNotification Index.setBonds Index.bonds].
  rewrite Hb. cbn [filter]. rewrite String.eqb_refl. cbn [negb]. now apply filter_absent.
Qed.

Lemma save_then_delete_restores_witness :
  Index.bonds
    (App.handleDelete 2 "0000005"
       (Index.handleProcessInput 1
          (Index.setInputValue "0000005"
             {| Index.bonds := ["0000009"]; Index.inputValue := "";
                Index.notifications := [] |})))
  = ["0000009"].
Proof.
  refine (save_then_delete_restores 1 2 "0000005"
            {| Index.bonds := ["0000009"]; Index.inputValue := "";
               Index.notifications := [] |} eq_refl _).
  intros [H | []]. discriminate H.
Defined.

(** X10 (nothing is lost in silence).  One action loses an identifier of the
    collection only if it is the deletion of that identifier or the
    confirmation in the open dialog; the dialog is open after an action only
    if it was open before or the action is the click on "Clear All" with a
    collection that is not empty.  The confirmation empties the collection
    and closes the dialog. *)
Theorem identifiers_are_lost_by_delete_or_confirmed_clear :
  (forall (a : App.Action) (app : App.App) (x : string),
      In x (Index.bonds (App.state app)) ->
      ~ In x (Index.bonds (App.state (App.step a app))) ->
      (exists now, a = App.Delete now x)
      \/ (exists now, a = App.ModalConfirm now /\ App.isClearDialogOpen app = true))
  /\ (forall (a : App.Action) (app : App.App),
        App.isClearDialogOpen (App.step a app) = true ->
        App.isClearDialogOpen app = true
        \/ (a = App.ClearAllClick /\ Index.bonds (App.state app) <> []))
  /\ (forall (now : Z) (app : App.App),
        App.isClearDialogOpen app = true ->
        Index.bonds (App.state (App.modalConfirm now app)) = []
        /\ App.isClearDialogOpen (App.modalConfirm now app) = false
        /\ Index.inputValue (App.state (App.modalConfirm now app))
           = Index.inputValue (App.state app)
        /\ Shown now Index.success "Database cleared successfully."
                 (App.state app) (App.state (App.modalConfirm now app))).
Proof.
  split; [| split].
  - intros a app x Hin Hout. destruct a; cbn [App.step] in Hout;
      try (exfalso; apply Hout; exact Hin).
    + exfalso. apply Hout. cbn [App.onState App.state].
      rewrite bonds_handleProcessInput. destruct (_ && _); [| exact Hin].
      apply in_or_app. now right.
    + left. exists now. f_equal.
      destruct (String.eqb x bond) eqn:E; [now apply String.eqb_eq in E |].
      exfalso. apply Hout. cbn. apply filter_In. split; [exact Hin |]. now rewrite E.
    + exfalso. apply Hout. unfold App.handleClearAllClick. now destruct (_ =? 0).
    + right. exists now. split; [reflexivity |].
      unfold App.modalConfirm in Hout. destruct (App.isClearDialogOpen app); [reflexivity |].
      exfalso. apply Hout. exact Hin.
    + exfalso. apply Hout. unfold App.modalClose. now destruct (negb _).
    + exfalso. apply Hout. unfold App.handleCopy. now destruct writeOk.
    + exfalso. apply Hout. unfold App.handleCopyAll.
      destruct (_ =? 0); [exact Hin |]. now destruct writeOk.
  - intros a app H. destruct a; cbn [App.step] in H; try (left; exact H).
    + unfold App.handleClearAllClick in H.
      destruct (Index.bonds (App.state app)) eqn:E; [left; exact H |].
      right. split; [reflexivity | discriminate].
    + unfold App.modalConfirm in H.
      destruct (App.isClearDialogOpen app) eqn:E; [now left | cbn in H; congruence].
    + unfold App.modalClose in H.
      destruct (App.isClearDialogOpen app) eqn:E; [now left | cbn in H; congruence].
    + unfold App.handleCopy in H. destruct writeOk; left; exact H.
    + unfold App.handleCopyAll in H. destruct (_ =? 0); [left; exact H |].
      destruct writeOk; left; exact H.
  - intros now app Hopen. unfold App.modalConfirm, Shown. rewrite Hopen. cbn.
    repeat split.
Qed.

Lemma identifiers_are_lost_by_delete_or_confirmed_clear_witness :
  let app := {| App.state := {| Index.bonds := ["0000001"]; Index.inputValue := "";
                                Index.notifications := [] |};
                App.searchQuery := ""; App.isClearDialogOpen := true;
                App.clipboard := "" |} in
  (exists now, App.ModalConfirm 3 = App.Delete now "0000001")
  \/ (exists now, App.ModalConfirm 3 = App.ModalConfirm now
                  /\ App.isClearDialogOpen app = true).
Proof.
  intros app.
  refine (proj1 identifiers_are_lost_by_delete_or_confirmed_clear
                (App.ModalConfirm 3) app "0000001" _ _).
  - left. reflexivity.
  - intros H. exact H.
Defined.

(** X11 (searching).  The filtered view is the identifiers of the collection
    that hold the query as a substring, in the order of the collection; the
    empty query filters nothing out, and a collection without repetition has
    a view without repetition. *)
Theorem filtered_view_is_substring_filter (bondList : list string) (query : string) :
  App.filteredBonds bondList query = filter (fun b => JS.includes b query) bondList
  /\ (forall x, In x (App.filteredBonds bondList query)
                <-> In x bondList
                    /\ exists pre post, x = String.append pre (String.append query post))
  /\ App.filteredBonds bondList EmptyString = bondList
  /\ (NoDup bondList -> NoDup (App.filteredBonds bondList query)).
Proof.
  assert (App.filteredBonds bondList query = filter (fun b => JS.includes b query) bondList)
    as E.
  { unfold App.filteredBonds. destruct query; [| reflexivity].
    cbn [JS.truthy negb]. symmetry. apply filter_all. intros x _. apply includes_empty. }
  split; [exact E | split; [| split]].
  - intros x. rewrite E, filter_In, includes_spec. tauto.
  - reflexivity.
  - intros Hnd. rewrite E. now apply NoDup_filter.
Qed.

Lemma filtered_view_is_substring_filter_witness :
  NoDup (App.filteredBonds ["0000001"; "1234567"; "1234568"] "1234").
Proof.
  refine (proj2 (proj2 (proj2 (filtered_view_is_substring_filter
            ["0000001"; "1234567"; "1234568"] "1234"))) _).
  repeat constructor; cbn; intuition discriminate.
Defined.

(** X12 (copying and pasting).  "Copy All" with a view that is not empty and
    a write that succeeds puts the view on the clipboard in a form that the
    input field reads back: the tokens of the text on the clipboard are the
    identifiers of the view, in order.  With an empty view or a failed write
    the clipboard keeps what it held.  The collection is never changed. *)
Theorem copy_all_reads_back (writeOk : bool) (now : Z) (app : App.App) :
  let view := App.filteredBonds (Index.bonds (App.state app)) (App.searchQuery app) in
  let app' := App.handleCopyAll writeOk now app in
  Index.bonds (App.state app') = Index.bonds (App.state app)
  /\ (view = [] \/ writeOk = false -> App.clipboard app' = App.clipboard app)
  /\ (view <> [] -> writeOk = true ->
      Forall (fun x => JS.singleTest x = true) (Index.bonds (App.state app)) ->
      App.clipboard app' = JS.join ", " view
      /\ Index.segmentsOf (App.clipboard app') = view).
Proof.
  intros view app'. subst app'. unfold App.handleCopyAll. fold view.
  destruct view as [| v rest] eqn:Hview.
  - cbn. split; [reflexivity | split; [reflexivity | intros Hne; now contradiction Hne]].
  - change (Z.of_nat (List.length (v :: rest)) =? 0) with false. cbv iota.
    destruct writeOk; cbn [App.onState App.writeText App.state App.clipboard
                           Index.showNotification Index.bonds].
    + split; [reflexivity |]. split; [intros [H | H]; discriminate H |].
      intros _ _ Hall. split; [reflexivity |].
      apply segmentsOf_join. rewrite <- Hview. apply Forall_forall. intros x Hx.
      assert (In x (Index.bonds (App.state app))) as Hin.
      { subst view. unfold App.filteredBonds in Hx.
        destruct (negb _); [exact Hx | now apply filter_In in Hx]. }
      rewrite Forall_forall in Hall. specialize (Hall x Hin).
      apply singleTest_spec in Hall as [Hl Hd].
      split; [destruct x; [discriminate | reflexivity] | now apply digits_no_separator].
    + split; [reflexivity |]. split; [reflexivity | discriminate].
Qed.

Lemma copy_all_reads_back_witness :
  let app := {| App.state := {| Index.bonds := ["0000001"; "1234567"; "1234568"];
                                Index.inputValue := ""; Index.notifications := [] |};
                App.searchQuery := "1234"; App.isClearDialogOpen := false;
                App.clipboard := "old" |} in
  App.clipboard (App.handleCopyAll true 9 app) = "1234567, 1234568"
  /\ Index.segmentsOf (App.clipboard (App.handleCopyAll true 9 app))
     = ["1234567"; "1234568"].
Proof.
  intros app.
  refine (proj2 (proj2 (copy_all_reads_back true 9 app)) _ eq_refl _).
  - discriminate.
  - repeat constructor.
Defined.

(* ================================================================== *)
(** ** The two patterns *)
(* ================================================================== *)

Section Patterns.
Import JS.

Lemma skipSpaces_split (s : string) :
  exists ws, everyChar isSpace ws = true /\ s = String.append ws (skipSpaces s).
Proof.
  induction s as [| c r IH]; [now exists EmptyString |].
  cbn [skipSpaces]. destruct (isSpace c) eqn:E; [| now exists EmptyString].
  destruct IH as (ws & Hws & Hr). exists (String c ws).
  cbn [everyChar String.append]. rewrite E, Hws.
  split; [reflexivity | now rewrite <- Hr].
Qed.

Lemma skipSpaces_app (ws s : string) :
  everyChar isSpace ws = true -> skipSpaces (String.append ws s) = skipSpaces s.
Proof.
  induction ws as [| c ws IH]; intros H; [reflexivity |].
  cbn [everyChar] in H. apply andb_true_iff in H as [Hc Hws].
  cbn [String.append skipSpaces]. now rewrite Hc, IH.
Qed.

End Patterns.

(** X13 (the patterns).  The single pattern accepts the strings of seven
    digits.  The range pattern accepts two such strings with a hyphen between
    them and any white space around the hyphen, and nothing else; its groups
    are the two strings. *)
Theorem patterns_accept_identifiers_only :
  (forall s : string,
      JS.singleTest s = true
      <-> String.length s = 7%nat /\ everyChar JS.isDigit s = true)
  /\ (forall s a b : string,
        JS.rangeMatch s = Some (a, b)
        <-> JS.singleTest a = true /\ JS.singleTest b = true
            /\ exists ws1 ws2,
                 everyChar JS.isSpace ws1 = true /\ everyChar JS.isSpace ws2 = true
                 /\ s = String.append a
                          (String.append ws1 (String "-" (String.append ws2 b)))).
Proof.
  split; [exact singleTest_spec |].
  intros s a b. split.
  - intros H. destruct (rangeMatch_sound _ _ _ H) as [Ha Hb].
    split; [exact Ha | split; [exact Hb |]].
    unfold JS.rangeMatch in H.
    destruct (JS.digitsN 7 s) as [[a' r1] |] eqn:E1; [| discriminate].
    apply digitsN_sound in E1 as (-> & _ & _).
    destruct (skipSpaces_split r1) as (ws1 & Hws1 & Hr1).
    destruct (JS.skipSpaces r1) as [| c r2]; [discriminate |].
    destruct (Ascii.eqb c "-") eqn:Ec.
    + apply Ascii.eqb_eq in Ec. subst c.
      destruct (skipSpaces_split r2) as (ws2 & Hws2 & Hr2).
      destruct (JS.digitsN 7 (JS.skipSpaces r2)) as [[b' r3] |] eqn:E2; [| discriminate].
      destruct r3; [| discriminate]. injection H as <- <-.
      apply digitsN_sound in E2 as (E2 & _ & _). rewrite append_empty_r in E2.
      exists ws1, ws2. split; [exact Hws1 | split; [exact Hws2 |]].
      rewrite Hr1 at 1. rewrite Hr2 at 1. now rewrite E2.
    + exfalso. apply Ascii.eqb_neq in Ec.
      destruct c as [[] [] [] [] [] [] [] []]; try discriminate. now apply Ec.
  - intros (Ha & Hb & ws1 & ws2 & Hws1 & Hws2 & ->).
    apply singleTest_spec in Ha as [Hla Hda], Hb as [Hlb Hdb].
    unfold JS.rangeMatch.
    pose proof (digitsN_complete a (String.append ws1 (String "-" (String.append ws2 b))) Hda)
      as E1.
    rewrite Hla in E1. rewrite E1.
    rewrite skipSpaces_app by assumption. cbn [JS.skipSpaces].
    change (JS.isSpace "-") with false. cbv iota.
    rewrite skipSpaces_app, skipSpaces_digits by assumption.
    pose proof (digitsN_complete b EmptyString Hdb) as E2.
    rewrite Hlb, append_empty_r in E2. now rewrite E2.
Qed.

(* ================================================================== *)
(** ** More on the earlier variant, [src/unnamed/part_000] *)
(* ================================================================== *)

Section Earlier.
Import JS.

Lemma splitCharFrom_piece (c : ascii) (s : string) (cur : list ascii) :
  everyChar (fun d => negb (Ascii.eqb d c)) s = true ->
  splitCharFrom c cur s = [String.append (string_of_list_ascii (rev cur)) s].
Proof.
  revert cur. induction s as [| d r IH]; intros cur H; simpl in *.
  - now rewrite append_empty_r.
  - apply andb_true_iff in H as [Hd Hr]. apply negb_true_iff in Hd. rewrite Hd.
    rewrite IH by assumption. simpl. now rewrite string_of_list_ascii_snoc.
Qed.

Lemma separator_of_comma (c : ascii) : Ascii.eqb c "," = true -> Index.isSeparator c = true.
Proof. unfold Index.isSeparator. now intros ->. Qed.

(** In the earlier variant too, the input that is one range is one token. *)
Lemma part000_range_token (a b : string) :
  singleTest a = true -> singleTest b = true ->
  truthy (trim (String.append a (String "-" b))) = true
  /\ Part000.segmentsOf (String.append a (String "-" b)) = [String.append a (String "-" b)].
Proof.
  intros Ha Hb. pose proof (range_token a b Ha Hb) as Htok.
  assert (In (String.append a (String "-" b)) (Index.segmentsOf (String.append a (String "-" b))))
    as Hin by (rewrite Htok; now left).
  destruct (segment_is_piece _ _ Hin) as [Ht Hs].
  pose proof (no_separator_no_space _ Hs) as Hsp.
  rewrite (trim_id _ Hsp). split; [exact Ht |].
  unfold Part000.segmentsOf, splitChar. rewrite splitCharFrom_piece.
  - cbn [rev string_of_list_ascii String.append map filter]. now rewrite (trim_id _ Hsp), Ht.
  - revert Hs. apply everyChar_weaken. intros c Hc.
    apply negb_true_iff in Hc. apply negb_true_iff.
    destruct (Ascii.eqb c ",") eqn:E; [| reflexivity].
    apply separator_of_comma in E. congruence.
Qed.

(** The callback of the earlier variant keeps the accepted set new and free
    of repetitions, and touches the notifications of the state only. *)
Lemma part000_consider_fresh (existingSet : JSSet) (x : string) (l : Part000.Locals) :
  (NoDup (Part000.validNewBonds l)
   /\ forall y, In y (Part000.validNewBonds l) -> has existingSet y = false) ->
  NoDup (Part000.validNewBonds (Part000.consider existingSet x l))
  /\ forall y, In y (Part000.validNewBonds (Part000.consider existingSet x l)) ->
               has existingSet y = false.
Proof.
  intros [Hnd Hex]. unfold Part000.consider.
  destruct (has existingSet x) eqn:E1; cbn; [now split |].
  destruct (has (Part000.validNewBonds l) x) eqn:E2; cbn; [now split |].
  split; [now apply NoDup_add |].
  intros y Hy. apply In_add in Hy as [Hy | ->]; auto.
Qed.

Lemma part000_rangeLoop_fresh (existingSet : JSSet) (count : nat) (i : Z)
      (l : Part000.Locals) :
  (NoDup (Part000.validNewBonds l)
   /\ forall y, In y (Part000.validNewBonds l) -> has existingSet y = false) ->
  NoDup (Part000.validNewBonds (Part000.rangeLoop existingSet count i l))
  /\ forall y, In y (Part000.validNewBonds (Part000.rangeLoop existingSet count i l)) ->
               has existingSet y = false.
Proof.
  revert i l. induction count as [| c IH]; intros i l H; cbn [Part000.rangeLoop];
    [exact H |].
  apply IH. now apply part000_consider_fresh.
Qed.

Lemma part000_processSegment_inv (now : Z) (existingSet : JSSet) (segment : string)
      (l : Part000.Locals) (st : Index.State) :
  (NoDup (Part000.validNewBonds l)
   /\ forall y, In y (Part000.validNewBonds l) -> has existingSet y = false) ->
  let p := Part000.processSegment now existingSet segment (l, st) in
  (NoDup (Part000.validNewBonds (fst p))
   /\ forall y, In y (Part000.validNewBonds (fst p)) -> has existingSet y = false)
  /\ Index.bonds (snd p) = Index.bonds st
  /\ Index.inputValue (snd p) = Index.inputValue st.
Proof.
  intros H. cbv zeta. unfold Part000.processSegment.
  destruct (rangeMatch segment) as [[a b] |].
  - destruct (parseInt a >? parseInt b); [cbn; auto |].
    destruct (_ >? 5000); [cbn; auto |].
    cbn [fst snd]. split; [now apply part000_rangeLoop_fresh | auto].
  - destruct (singleTest segment); cbn [fst snd]; [| cbn; auto].
    split; [now apply part000_consider_fresh | auto].
Qed.

Lemma part000_scan_inv (now : Z) (st : Index.State) :
  let p := part000Scan now st in
  (NoDup (Part000.validNewBonds (fst p))
   /\ forall y, In y (Part000.validNewBonds (fst p)) ->
                has (newSet (Index.bonds st)) y = false)
  /\ Index.bonds (snd p) = Index.bonds st
  /\ Index.inputValue (snd p) = Index.inputValue st.
Proof.
  unfold part000Scan. generalize (Part000.segmentsOf (Index.inputValue st)) as segments.
  set (ex := newSet (Index.bonds st)).
  assert (forall segments (l : Part000.Locals) (st0 : Index.State),
             (NoDup (Part000.validNewBonds l)
              /\ forall y, In y (Part000.validNewBonds l) -> has ex y = false) ->
             let p := fold_left (fun p segment => Part000.processSegment now ex segment p)
                                segments (l, st0) in
             (NoDup (Part000.validNewBonds (fst p))
              /\ forall y, In y (Part000.validNewBonds (fst p)) -> has ex y = false)
             /\ Index.bonds (snd p) = Index.bonds st0
             /\ Index.inputValue (snd p) = Index.inputValue st0) as Hgen.
  { induction segments as [| seg rest IH]; intros l st0 H; cbn [fold_left].
    - cbn. auto.
    - destruct (part000_processSegment_inv now ex seg l st0 H) as (H1 & H2 & H3).
      cbv zeta in *.
      destruct (Part000.processSegment now ex seg (l, st0)) as [l1 st1].
      cbn [fst snd] in *. destruct (IH l1 st1 H1) as (G1 & G2 & G3).
      split; [exact G1 |]. split; congruence. }
  intros segments. apply Hgen. split; [constructor | intros y []].
Qed.

(** The collection and the input field after the earlier handler. *)
Lemma part000_after (now : Z) (st : Index.State) :
  let acc := Part000.validNewBonds (fst (part000Scan now st)) in
  let st' := Part000.handleProcessInput now st in
  (truthy (trim (Index.inputValue st)) && (size acc >? 0) = true ->
   Index.bonds st' = rev acc ++ Index.bonds st /\ Index.inputValue st' = EmptyString)
  /\ (truthy (trim (Index.inputValue st)) && (size acc >? 0) = false ->
      Index.bonds st' = Index.bonds st /\ Index.inputValue st' = Index.inputValue st).
Proof.
  cbv zeta. destruct (part000_scan_inv now st) as (_ & Hb & Hi). cbv zeta in Hb, Hi.
  unfold Part000.handleProcessInput. fold (part000Scan now st).
  destruct (truthy (trim (Index.inputValue st))); cbn [negb andb].
  - destruct (part000Scan now st) as [l st1]. cbn [fst snd] in *.
    destruct (size (Part000.validNewBonds l) >? 0).
    + split; [intros _ | discriminate]. cbn. now rewrite Hb.
    + split; [discriminate | intros _]. cbn. now rewrite Hb, Hi.
  - split; [discriminate | intros _]. cbn. auto.
Qed.

End Earlier.

(** X14 (the earlier variant keeps identifiers unique).  The handler of
    [src/unnamed/part_000] never makes the collection hold an identifier
    twice. *)
Theorem part000_keeps_identifiers_unique (now : Z) (st : Index.State) :
  NoDup (Index.bonds st) -> NoDup (Index.bonds (Part000.handleProcessInput now st)).
Proof.
  intros Hnd. destruct (part000_after now st) as [Hyes Hno]. cbv zeta in *.
  destruct (part000_scan_inv now st) as ((Hacc & Hex) & _). cbv zeta in *.
  destruct (JS.truthy (JS.trim (Index.inputValue st))
            && (JS.size (Part000.validNewBonds (fst (part000Scan now st))) >? 0)).
  - destruct (Hyes eq_refl) as [-> _].
    apply NoDup_app; [now apply NoDup_rev | assumption |].
    intros x Hx Hin. apply in_rev in Hx. specialize (Hex x Hx).
    rewrite has_newSet in Hex. apply has_false_In in Hex. contradiction.
  - destruct (Hno eq_refl) as [-> _]. assumption.
Qed.

Lemma part000_keeps_identifiers_unique_witness :
  NoDup (Index.bonds
           (Part000.handleProcessInput 1
              {| Index.bonds := ["0000002"]; Index.inputValue := "0000001 - 0000003";
                 Index.notifications := [] |})).
Proof.
  apply part000_keeps_identifiers_unique.
  repeat constructor. intros [].
Defined.

(** X15 (the earlier variant and the input field).  In
    [src/unnamed/part_000] a call that accepts nothing changes neither the
    collection nor the input field, also when all it met were duplicates; a
    call that accepts identifiers puts them, reversed, in front of the
    collection and clears the input field. *)
Theorem part000_input_kept_unless_accepted (now : Z) (st : Index.State) :
  let acc := Part000.validNewBonds (fst (part000Scan now st)) in
  let st' := Part000.handleProcessInput now st in
  (acc = [] ->
   Index.bonds st' = Index.bonds st /\ Index.inputValue st' = Index.inputValue st)
  /\ (JS.truthy (JS.trim (Index.inputValue st)) = true -> acc <> [] ->
      Index.bonds st' = rev acc ++ Index.bonds st /\ Index.inputValue st' = EmptyString).
Proof.
  cbv zeta. destruct (part000_after now st) as [Hyes Hno]. cbv zeta in *. split.
  - intros Hacc. apply Hno. rewrite Hacc. apply andb_false_r.
  - intros Ht Hacc. apply Hyes. rewrite Ht. now apply size_positive.
Qed.

Lemma part000_input_kept_unless_accepted_witness :
  let st := {| Index.bonds := ["0000002"]; Index.inputValue := "0000002";
               Index.notifications := [] |} in
  Index.bonds (Part000.handleProcessInput 1 st) = ["0000002"]
  /\ Index.inputValue (Part000.handleProcessInput 1 st) = "0000002".
Proof.
  intros st. exact (proj1 (part000_input_kept_unless_accepted 1 st) eq_refl).
Defined.

(** X16 (the earlier variant and inverted ranges).  In
    [src/unnamed/part_000] the input that is one range whose first bound is
    the greater one changes nothing but the notifications: the handler shows
    the error "No valid bonds added.", which does not name the range. *)
Theorem part000_inverted_range_input (now : Z) (st : Index.State) (a b : string) :
  JS.singleTest a = true -> JS.singleTest b = true ->
  JS.parseInt a > JS.parseInt b ->
  Index.inputValue st = String.append a (String "-" b) ->
  Part000.handleProcessInput now st
  = Index.showNotification now Index.error "No valid bonds added." st.
Proof.
  intros Ha Hb Hgt Hin. unfold Part000.handleProcessInput. rewrite Hin.
  destruct (part000_range_token a b Ha Hb) as [-> ->].
  cbn [negb fold_left]. unfold Part000.processSegment.
  rewrite (rangeMatch_hyphen a b Ha Hb).
  apply Z.gt_lt, Z.gtb_lt in Hgt. rewrite Hgt. reflexivity.
Qed.

Lemma part000_inverted_range_input_witness :
  let st := {| Index.bonds := []; Index.inputValue := "0000008-0000005";
               Index.notifications := [] |} in
  Part000.handleProcessInput 4 st
  = Index.showNotification 4 Index.error "No valid bonds added." st.
Proof.
  intros st.
  exact (part000_inverted_range_input 4 st "0000008" "0000005" eq_refl eq_refl
           eq_refl eq_refl).
Defined.

(** X17 (the earlier variant and its cap).  In [src/unnamed/part_000] the
    input that is one range with a span over 5000 changes neither the
    collection nor the input field: the callback shows a warning that names
    the range, and the handler then shows the error "No valid bonds
    added.". *)
Theorem part000_oversized_range_input (now : Z) (st : Index.State) (a b : string) :
  JS.singleTest a = true -> JS.singleTest b = true ->
  JS.parseInt b - JS.parseInt a > 5000 ->
  Index.inputValue st = String.append a (String "-" b) ->
  let st' := Part000.handleProcessInput now st in
  Index.bonds st' = Index.bonds st
  /\ Index.inputValue st' = Index.inputValue st
  /\ shownTexts st'
     = shownTexts st
       ++ [(Index.warning,
            String.append "Range "
              (String.append (String.append a (String "-" b))
                             " too large (max 5000). Skipped."));
           (Index.error, "No valid bonds added.")].
Proof.
  intros Ha Hb Hgt Hin. cbv zeta. unfold Part000.handleProcessInput. rewrite Hin.
  destruct (part000_range_token a b Ha Hb) as [-> ->].
  cbn [negb fold_left]. unfold Part000.processSegment.
  rewrite (rangeMatch_hyphen a b Ha Hb).
  assert ((JS.parseInt a >? JS.parseInt b) = false) as ->
      by (rewrite Z.gtb_ltb; apply Z.ltb_ge; lia).
  apply Z.gt_lt, Z.gtb_lt in Hgt. rewrite Hgt.
  unfold shownTexts. cbn. rewrite Hin.
  split; [reflexivity | split; [reflexivity |]].
  rewrite <- app_assoc, map_app. reflexivity.
Qed.

Lemma part000_oversized_range_input_witness :
  let st := {| Index.bonds := []; Index.inputValue := "0000001-0005002";
               Index.notifications := [] |} in
  shownTexts (Part000.handleProcessInput 4 st)
  = [(Index.warning, "Range 0000001-0005002 too large (max 5000). Skipped.");
     (Index.error, "No valid bonds added.")].
Proof.
  intros st.
  exact (proj2 (proj2 (part000_oversized_range_input 4 st "0000001" "0005002"
                         eq_refl eq_refl eq_refl eq_refl))).
Defined.

(* ================================================================== *)
(** ** The cap from below, notifications, and white space in a range *)
(* ================================================================== *)

(** X18 (a range within the cap).  A range whose span is at most
    [MAX_RANGE_SIZE], the cap itself included, is never counted as an error:
    every integer from the smaller bound to the greater one is tested, and
    each is either accepted or counted as a duplicate. *)
Theorem range_within_cap_tests_every_integer
        (existingSet : JS.JSSet) (segment a b : string) (o : Index.Outcome) :
  JS.rangeMatch segment = Some (a, b) ->
  Z.max (JS.parseInt a) (JS.parseInt b) - Z.min (JS.parseInt a) (JS.parseInt b)
    <= Index.MAX_RANGE_SIZE ->
  let o' := Index.processSegment existingSet segment o in
  JS.size (Index.validNewBonds o') + Index.duplicates o'
  = JS.size (Index.validNewBonds o) + Index.duplicates o
    + (Z.max (JS.parseInt a) (JS.parseInt b) - Z.min (JS.parseInt a) (JS.parseInt b) + 1)
  /\ Index.rangeSizeErrors o' = Index.rangeSizeErrors o
  /\ Index.rangeFormatErrors o' = Index.rangeFormatErrors o
  /\ Index.singleFormatErrors o' = Index.singleFormatErrors o.
Proof.
  intros Hm Hspan. cbv zeta. rewrite (processSegment_range _ _ a b) by assumption.
  cbv zeta.
  set (lo := Z.min (JS.parseInt a) (JS.parseInt b)) in *.
  set (hi := Z.max (JS.parseInt a) (JS.parseInt b)) in *.
  destruct (hi - lo >? Index.MAX_RANGE_SIZE) eqn:E; [apply Z.gtb_lt in E; lia |].
  destruct (rangeLoop_accounts existingSet (Z.to_nat (hi - lo + 1)) lo o) as [E1 _].
  destruct (rangeLoop_errors existingSet (Z.to_nat (hi - lo + 1)) lo o) as (E2 & E3 & E4).
  cbv zeta in *. rewrite E1, E2, E3, E4.
  assert (0 <= hi - lo) by (unfold lo, hi; lia).
  repeat split. lia.
Qed.

Lemma range_within_cap_tests_every_integer_witness :
  let o' := Index.processSegment ["0000002"] "0000003-0000001" Index.noOutcome in
  JS.size (Index.validNewBonds o') + Index.duplicates o' = 3.
Proof.
  intros o'.
  assert (Z.max (JS.parseInt "0000003") (JS.parseInt "0000001")
          - Z.min (JS.parseInt "0000003") (JS.parseInt "0000001") <= Index.MAX_RANGE_SIZE)
    as Hspan by (vm_compute; discriminate).
  exact (proj1 (range_within_cap_tests_every_integer ["0000002"] "0000003-0000001"
                  "0000003" "0000001" Index.noOutcome eq_refl Hspan)).
Defined.

(** X19 (dismissing a notification).  [removeNotification] takes away every
    notification with the given id, keeps the others in their order and
    touches nothing else: what is left is the list as it was without the
    notifications of that id, and when one notification has the id it is cut
    out from between the ones before it and the ones behind it.  A second
    removal, as the timer does after a dismissal by hand, changes nothing; an
    id that no notification has changes nothing; and a notification shown
    with an id that no other notification has is undone by its removal. *)
Theorem dismissal_removes_the_id (i : Z) (st : Index.State) :
  Index.bonds (App.removeNotification i st) = Index.bonds st
  /\ Index.inputValue (App.removeNotification i st) = Index.inputValue st
  /\ (forall n, In n (Index.notifications (App.removeNotification i st))
                <-> In n (Index.notifications st) /\ Index.id n <> i)
  /\ App.removeNotification i (App.removeNotification i st) = App.removeNotification i st
  /\ (forall t msg,
         (forall n, In n (Index.notifications st) -> Index.id n <> i) ->
         App.removeNotification i (Index.showNotification i t msg st) = st)
  /\ Index.notifications (App.removeNotification i st)
     = filter (fun n => negb (Index.id n =? i)) (Index.notifications st)
  /\ (forall before n behind,
         Index.notifications st = before ++ n :: behind ->
         Index.id n = i ->
         (forall m, In m (before ++ behind) -> Index.id m <> i) ->
         Index.notifications (App.removeNotification i st) = before ++ behind)
  /\ ((forall n, In n (Index.notifications st) -> Index.id n <> i) ->
      App.removeNotification i st = st).
Proof.
  assert (forall l : list Index.Notification,
             (forall m, In m l -> Index.id m <> i) ->
             filter (fun n => negb (Index.id n =? i)) l = l) as Hkeep.
  { intros l Hl. apply filter_all. intros m Hm. apply negb_true_iff, Z.eqb_neq. now apply Hl. }
  split; [reflexivity | split; [reflexivity |]].
  split; [| split; [| split; [| split; [reflexivity | split]]]].
  - intros n. cbn. rewrite filter_In, negb_true_iff, Z.eqb_neq. tauto.
  - unfold App.removeNotification. cbn. f_equal.
    apply filter_all. intros n Hn. now apply filter_In in Hn.
  - intros t msg Hfresh. destruct st as [bs iv ns]. unfold App.removeNotification. cbn in *.
    f_equal. rewrite filter_app. cbn. rewrite Z.eqb_refl. cbn. rewrite app_nil_r.
    now apply Hkeep.
  - intros before n behind E Hid Hothers. cbn [App.removeNotification Index.notifications].
    rewrite E, filter_app. cbn [filter]. rewrite Hid, Z.eqb_refl. cbn [negb].
    rewrite !Hkeep; [reflexivity | |]; intros m Hm; apply Hothers; apply in_or_app; auto.
  - intros Hfresh. destruct st as [bs iv ns]. unfold App.removeNotification. cbn in *.
    f_equal. now apply Hkeep.
Qed.

Lemma dismissal_removes_the_id_witness :
  let n1 := {| Index.id := 1; Index.type := Index.success; Index.message := "Added 1 bond." |} in
  let n2 := {| Index.id := 2; Index.type := Index.warning;
               Index.message := "Duplicate bond found." |} in
  let n3 := {| Index.id := 3; Index.type := Index.error;
               Index.message := "No valid bonds found." |} in
  let st := {| Index.bonds := ["0000001"]; Index.inputValue := "";
               Index.notifications := [n1; n2; n3] |} in
  Index.notifications (App.removeNotification 1 st) = [n2; n3].
Proof.
  intros n1 n2 n3 st.
  refine (proj1 (proj2 (proj2 (proj2 (proj2 (proj2 (proj2 (dismissal_removes_the_id 1 st)))))))
            [] n1 [n2; n3] eq_refl eq_refl _).
  intros m [<- | [<- | []]]; discriminate.
Defined.

(** X20 (white space around the hyphen).  The input is split at white space
    before the range pattern is tried, so that two different new identifiers
    with " - " between them are not a range: both are accepted as singles,
    nothing between them is, and the hyphen alone is counted as a malformed
    range. *)
Theorem spaced_range_is_two_singles (bondList : list string) (a b : string) :
  JS.singleTest a = true -> JS.singleTest b = true -> a <> b ->
  ~ In a bondList -> ~ In b bondList ->
  Index.ingest bondList (String.append a (String " " (String "-" (String " " b))))
  = {| Index.validNewBonds := [a; b]; Index.duplicates := 0; Index.rangeFormatErrors := 1;
       Index.rangeSizeErrors := 0; Index.singleFormatErrors := 0 |}.
Proof.
  intros Ha Hb Hab Hna Hnb.
  pose proof (proj1 (singleTest_spec a) Ha) as [Hla Hda].
  pose proof (proj1 (singleTest_spec b) Hb) as [Hlb Hdb].
  assert (JS.truthy a = true) as Hta by (destruct a; [discriminate | reflexivity]).
  assert (JS.truthy b = true) as Htb by (destruct b; [discriminate | reflexivity]).
  pose proof (digits_no_separator a Hda) as Hsa.
  pose proof (digits_no_separator b Hdb) as Hsb.
  assert (Index.segmentsOf (String.append a (String " " (String "-" (String " " b))))
          = [a; "-"; b]) as Hseg.
  { unfold Index.segmentsOf, JS.splitClass.
    rewrite splitRuns_cut; [| exact Hsa | reflexivity | reflexivity].
    change (String "-" (String " " b)) with (String.append "-" (String " " b)).
    rewrite splitRuns_cut; [| reflexivity | reflexivity | discriminate].
    rewrite splitRuns_piece by exact Hsb.
    cbn [rev string_of_list_ascii String.append map].
    rewrite !trim_id by now apply no_separator_no_space.
    cbn [filter]. rewrite Hta, Htb. reflexivity. }
  unfold Index.ingest. rewrite Hseg. cbn [fold_left].
  rewrite (processSegment_single _ a) by assumption.
  rewrite (consider_new _ a Index.noOutcome);
    [| rewrite has_newSet; now apply has_false_In | reflexivity].
  change (Index.processSegment (JS.newSet bondList) "-" ?o)
    with {| Index.validNewBonds := Index.validNewBonds o;
            Index.duplicates := Index.duplicates o;
            Index.rangeFormatErrors := Index.rangeFormatErrors o + 1;
            Index.rangeSizeErrors := Index.rangeSizeErrors o;
            Index.singleFormatErrors := Index.singleFormatErrors o |}.
  rewrite (processSegment_single _ b) by assumption.
  rewrite consider_new; [reflexivity | rewrite has_newSet; now apply has_false_In |].
  cbn. apply orb_false_iff. split; [| reflexivity].
  apply String.eqb_neq. congruence.
Qed.

Lemma spaced_range_is_two_singles_witness :
  Index.ingest [] "0000001 - 0000003"
  = {| Index.validNewBonds := ["0000001"; "0000003"]; Index.duplicates := 0;
       Index.rangeFormatErrors := 1; Index.rangeSizeErrors := 0;
       Index.singleFormatErrors := 0 |}.
Proof.
  refine (spaced_range_is_two_singles [] "0000001" "0000003" eq_refl eq_refl _ _ _).
  - discriminate.
  - intros [].
  - intros [].
Defined.
